(** * Ben-Or style consensus node: the handlers of [node.ts]

    A shallow embedding of the request handlers that [node(...)] installs on
    its express application ([/status], [/start], [/message], [/stop],
    [/getState]) and of the state they close over: the two tally maps
    [proposals] and [votes] and the record [currentState].

    The repository holds two copies of the node.  They run the same
    algorithm and differ in the strings used as the [type] field of a
    message; the embedding takes those strings as a parameter ([Tags]) and
    instantiates it once per copy. *)

From Stdlib Require Import ZArith QArith Lia List SpecFloat.
From stdpp Require Import gmap strings list.
Import ListNotations.

Close Scope Q_scope.
Local Open Scope Z_scope.

(** ** Data *)

(** Modelled from the spec: the type [Value] imported from [../types], which
    is not among the sources.  The spec gives the value domain as 0, 1 and
    the ambiguous marker, and [NodeState] types [x] as [0 | 1 | "?" | null]. *)
Inductive Value : Set :=
  | V0   (* 0 *)
  | V1   (* 1 *)
  | VQ.  (* "?" *)


(** [type NodeState = { killed; x; decided; k }]; [null] is [None]. *)
Record NodeState : Set := mkNodeState {
  killed : bool;
  x : option Value;
  decided : option bool;
  k : option Z;
}.

(** The JSON body [{ k, x, type }] of a [/message] request: [k] a round
    number and [x] a [Value], as the tallies they go into are typed
    [Map<number, Value[]>].  A round is a number that holds an integer;
    a [k] with a fractional part, an infinite one (a JSON number too large
    for a double) and a body without [k] are not among the messages of this
    model. *)
Record Message : Set := mkMessage {
  msg_k : Z;
  msg_x : Value;
  msg_type : string;
}.

(** One [fetch] call: a POST of [body] to
    [http://localhost:${BASE_NODE_PORT + i}/message]. *)
Record Fetch : Set := mkFetch {
  port : Z;
  body : Message;
}.

(** The strings a copy of the node compares [type] with and the strings it
    writes into the messages it sends. *)
Record Tags : Set := mkTags {
  handled_propose : string;
  handled_vote : string;
  sent_propose : string;
  sent_vote : string;
}.

(** [src/nodes/node.ts] *)
Definition tags_node_ts : Tags :=
  {| handled_propose := "Propose"; handled_vote := "Vote";
     sent_propose := "2P"; sent_vote := "2V" |}.

(** The second copy of the node. *)
Definition tags_part_000 : Tags :=
  {| handled_propose := "propose"; handled_vote := "vote";
     sent_propose := "propose"; sent_vote := "vote" |}.

(** The mutable variables of one call of [node(...)]. *)
Record Node : Type := mkNode {
  proposals : gmap Z (list Value);
  votes : gmap Z (list Value);
  currentState : NodeState;
}.

(** ** Pieces of the [/message] handler *)

(** [v == 0] and [v == 1] on a [Value]: the string ["?"] converts to NaN and
    equals neither number. *)
Definition eq0 (v : Value) : bool := match v with V0 => true | _ => false end.
Definition eq1 (v : Value) : bool := match v with V1 => true | _ => false end.

(** [l.filter((x) => x == 0).length] and [l.filter((x) => x == 1).length] *)
Definition count0 (l : list Value) : nat := length (List.filter eq0 l).
Definition count1 (l : list Value) : nat := length (List.filter eq1 l).

(** [if (!m.has(key)) m.set(key, []); m.get(key)!.push(v); m.get(key)!]:
    the array stored under [key] after the push, and the map holding it. *)
Definition push (key : Z) (v : Value) (m : gmap Z (list Value))
  : list Value * gmap Z (list Value) :=
  let l := default [] (m !! key) ++ [v] in
  (l, <[key := l]> m).

(** The number nearest to the integer [z] among those a JS number can
    hold, a tie going to the even mantissa of 53 bits: an integer of
    magnitude below 2^53 is held as it is, and from there on only the
    multiples of the power of two [2 ^ e] are (magnitudes below 2^1024). *)
Definition round53 (z : Z) : Z :=
  let a := Z.abs z in
  let e := Z.log2 a - 52 in
  if e <=? 0 then z
  else
    let u := 2 ^ e in
    let q := a / u in
    let r := a mod u in
    let q' := if 2 * r <? u then q
              else if u <? 2 * r then q + 1
              else if Z.even q then q else q + 1 in
    Z.sgn z * (q' * u).

(** [a + b] on two numbers that hold integers: the exact sum, rounded. *)
Definition js_add (a b : Z) : Z := round53 (a + b).

(** The binary64 number of the Standard Library's IEEE 754 specification
    that an integer is read as, and the integer a finite such number of
    integral value stands for; they are used to compare [js_add] with the
    addition of that specification. *)
Definition binary64_of_Z (z : Z) : spec_float :=
  binary_normalize 53 1024 z 0 false.

Definition Z_of_binary64 (f : spec_float) : Z :=
  match f with
  | S754_finite s m e =>
      cond_Zopp s (if 0 <=? e then Z.pos m * 2 ^ e else Z.pos m / 2 ^ (- e))
  | _ => 0
  end.

Definition binary64_add (a b : Z) : Z :=
  Z_of_binary64 (SFadd 53 1024 (binary64_of_Z a) (binary64_of_Z b)).

(** [Math.random() > 0.5 ? 0 : 1], the draw [rnd] being what [Math.random()]
    returned. *)
Definition coin (rnd : Q) : Value :=
  if Qle_bool rnd (1 # 2) then V1 else V0.

Section node.

(** The parameters of [node(...)] that the handlers read, and the
    constant [BASE_NODE_PORT] of [../config]. *)
Variable tags : Tags.
Variable BASE_NODE_PORT : Z.
Variable N : nat.
Variable F : nat.
Variable initialValue : Value.
Variable isFaulty : bool.

(** [for (let i = 0; i < N; i++) fetch(..., body)] *)
Definition broadcast (m : Message) : list Fetch :=
  map (fun i : nat => {| port := BASE_NODE_PORT + Z.of_nat i; body := m |})
      (seq 0 N).

(** [l.length >= N - F] *)
Definition quorum (l : list Value) : bool :=
  Z.of_nat N - Z.of_nat F <=? Z.of_nat (length l).

(** [c > N / 2], the division being the exact one of JS numbers. *)
Definition gt_half (c : nat) : bool :=
  negb (Qle_bool (inject_Z (Z.of_nat c)) (inject_Z (Z.of_nat N) / (2 # 1))).

(** [CN > N / 2 ? 0 : CY > N / 2 ? 1 : "?"] *)
Definition vote_value (proposal : list Value) : Value :=
  let CN := count0 proposal in
  let CY := count1 proposal in
  if gt_half CN then V0 else if gt_half CY then V1 else VQ.

(** [CN + CY > 0 && CN > CY ? 0 : CN + CY > 0 && CN < CY ? 1
      : Math.random() > 0.5 ? 0 : 1] *)
Definition next_value (rnd : Q) (CN CY : nat) : Value :=
  if (0 <? Z.of_nat CN + Z.of_nat CY) && (Z.of_nat CY <? Z.of_nat CN) then V0
  else if (0 <? Z.of_nat CN + Z.of_nat CY) && (Z.of_nat CN <? Z.of_nat CY) then V1
  else coin rnd.

(** The state the node is created with. *)
Definition init : Node :=
  {| proposals := ∅; votes := ∅;
     currentState := {| killed := false; x := Some initialValue;
                        decided := Some false; k := Some 0 |} |}.

(** [GET /status]: the status code and the text sent. *)
Definition status : Z * string :=
  if isFaulty then (500, "faulty"%string) else (200, "live"%string).

(** [while (!nodesAreReady()) { await delay(100); }]: [ready i] is what the
    [i]-th call of [nodesAreReady] answers; the result is the number of
    delays the loop went through, [None] when [fuel] polls were not
    enough. *)
Fixpoint await_ready (ready : nat -> bool) (i fuel : nat) : option nat :=
  match fuel with
  | O => None
  | S fuel' => if ready i then Some i else await_ready ready (S i) fuel'
  end.

(** [GET /start] from the point where the loop above is left: nothing is
    awaited any more, so this part runs in one piece on the state [nd] it
    finds.  The payload reads back the [k] and [x] just assigned. *)
Definition start_body (nd : Node) : Node * list Fetch :=
  let st := currentState nd in
  if negb isFaulty then
    ({| proposals := proposals nd; votes := votes nd;
        currentState := {| killed := killed st; x := Some initialValue;
                           decided := Some false; k := Some 1 |} |},
     broadcast {| msg_k := 1; msg_x := initialValue;
                  msg_type := sent_propose tags |})
  else
    ({| proposals := proposals nd; votes := votes nd;
        currentState := {| killed := killed st; x := None;
                           decided := None; k := None |} |},
     []).

(** [GET /start]. *)
Definition start (ready : nat -> bool) (fuel : nat) (nd : Node)
  : option (Node * list Fetch) :=
  match await_ready ready 0 fuel with
  | None => None
  | Some _ => Some (start_body nd)
  end.

(** [POST /message] with body [m]. *)
Definition onMessage (rnd : Q) (m : Message) (nd : Node) : Node * list Fetch :=
  let st := currentState nd in
  if negb (killed st) && negb isFaulty then
    if String.eqb (msg_type m) (handled_propose tags) then
      let '(proposal, proposals') := push (msg_k m) (msg_x m) (proposals nd) in
      let nd' := {| proposals := proposals'; votes := votes nd;
                    currentState := st |} in
      if quorum proposal then
        (nd', broadcast {| msg_k := msg_k m; msg_x := vote_value proposal;
                           msg_type := sent_vote tags |})
      else (nd', [])
    else if String.eqb (msg_type m) (handled_vote tags) then
      let '(vote, votes') := push (msg_k m) (msg_x m) (votes nd) in
      if quorum vote then
        let CN := count0 vote in
        let CY := count1 vote in
        if Z.of_nat F + 1 <=? Z.of_nat CN then
          ({| proposals := proposals nd; votes := votes';
              currentState := {| killed := killed st; x := Some V0;
                                 decided := Some true; k := k st |} |},
           [])
        else if Z.of_nat F + 1 <=? Z.of_nat CY then
          ({| proposals := proposals nd; votes := votes';
              currentState := {| killed := killed st; x := Some V1;
                                 decided := Some true; k := k st |} |},
           [])
        else
          let x' := next_value rnd CN CY in
          let k' := js_add (msg_k m) 1 in
          ({| proposals := proposals nd; votes := votes';
              currentState := {| killed := killed st; x := Some x';
                                 decided := decided st; k := Some k' |} |},
           broadcast {| msg_k := k'; msg_x := x';
                        msg_type := sent_propose tags |})
      else
        ({| proposals := proposals nd; votes := votes';
            currentState := st |}, [])
    else (nd, [])
  else (nd, []).

(** [GET /stop] *)
Definition stop (nd : Node) : Node :=
  {| proposals := proposals nd; votes := votes nd;
     currentState := {| killed := true; x := None; decided := None;
                        k := Some 0 |} |}.

(** [GET /getState]: the object sent. *)
Definition getState (nd : Node) : NodeState :=
  if isFaulty then
    {| killed := killed (currentState nd); x := None; decided := None;
       k := None |}
  else currentState nd.

(** ** Runs

    The requests that change the node, and their effect in the order they
    are served ([OpStart] stands for a [/start] whose wait has ended). *)
Inductive Op : Type :=
  | OpStart
  | OpMessage (rnd : Q) (m : Message)
  | OpStop.

Definition step (o : Op) (nd : Node) : Node * list Fetch :=
  match o with
  | OpStart => start_body nd
  | OpMessage rnd m => onMessage rnd m nd
  | OpStop => (stop nd, [])
  end.

(** The node after serving [ops] from [nd], and everything it sent. *)
Fixpoint run (ops : list Op) (nd : Node) : Node * list Fetch :=
  match ops with
  | [] => (nd, [])
  | o :: ops' =>
      let '(nd1, out1) := step o nd in
      let '(nd2, out2) := run ops' nd1 in
      (nd2, out1 ++ out2)
  end.

End node.

(** ** Vocabulary of the statements *)

(** Requests for the concrete runs: a vote and a proposal as the second copy
    of the node tags them, delivered with a draw of one quarter. *)
Definition vote_msg (r : Z) (v : Value) : Message :=
  {| msg_k := r; msg_x := v; msg_type := "vote" |}.
Definition propose_msg (r : Z) (v : Value) : Message :=
  {| msg_k := r; msg_x := v; msg_type := "propose" |}.
Definition deliver (m : Message) : Op := OpMessage (1 # 4)%Q m.

(** A run made of [/message] requests only. *)
Definition deliveries (ms : list (Q * Message)) : list Op :=
  map (fun rm : Q * Message => OpMessage rm.1 rm.2) ms.

(** [OpStop] occurs in a run. *)
Definition is_stop (o : Op) : bool :=
  match o with OpStop => true | _ => false end.

(** A tally that grows from [before] to [after] entries is exactly at the
    threshold [N - F] or has just crossed it. *)
Definition at_or_just_crossed (N F before after : nat) : Prop :=
  Z.of_nat after = Z.of_nat N - Z.of_nat F
  \/ (Z.of_nat before < Z.of_nat N - Z.of_nat F
      /\ Z.of_nat N - Z.of_nat F <= Z.of_nat after).

(** [m.get(r)], an absent round read as the empty array. *)
Definition tally (m : gmap Z (list Value)) (r : Z) : list Value :=
  default [] (m !! r).

(** [node.listen(BASE_NODE_PORT + nodeId, ...)]: the port node [nodeId]
    takes its requests on. *)
Definition listen_port (BASE_NODE_PORT : Z) (nodeId : nat) : Z :=
  BASE_NODE_PORT + Z.of_nat nodeId.

(** The fetches of a list that go to the port of node [nodeId]. *)
Definition fetches_to (BASE_NODE_PORT : Z) (nodeId : nat) (out : list Fetch)
  : list Fetch :=
  List.filter (fun f : Fetch => port f =? listen_port BASE_NODE_PORT nodeId) out.

(** A request as nodes running with the tags [tags] produce them: every
    message among them carries one of the two tags such a node writes. *)
Definition sent_by (tags : Tags) (o : Op) : Prop :=
  match o with
  | OpMessage _ m =>
      msg_type m = sent_propose tags \/ msg_type m = sent_vote tags
  | _ => True
  end.

(** The sizes among [1 .. s] that are at or above the threshold [N - F]. *)
Definition sizes_at_quorum (N F s : nat) : nat := (s - (N - F - 1))%nat.

(** [n] deliveries of the same message. *)
Definition repeated (rnd : Q) (m : Message) (n : nat) : list Op :=
  deliveries (repeat (rnd, m) n).

(** ** Basic facts about the pieces *)



Lemma count0_snoc (l : list Value) (v : Value) :
  count0 (l ++ [v]) = (count0 l + (if eq0 v then 1 else 0))%nat.
Proof.
  unfold count0. rewrite List.filter_app, length_app. simpl.
  destruct (eq0 v); reflexivity.
Qed.

Lemma count1_snoc (l : list Value) (v : Value) :
  count1 (l ++ [v]) = (count1 l + (if eq1 v then 1 else 0))%nat.
Proof.
  unfold count1. rewrite List.filter_app, length_app. simpl.
  destruct (eq1 v); reflexivity.
Qed.

Lemma counts_le_length (l : list Value) :
  (count0 l + count1 l <= length l)%nat.
Proof.
  unfold count0, count1. induction l as [|v l IH]; [simpl; lia|].
  destruct v; simpl; lia.
Qed.

Lemma push_tally (key : Z) (v : Value) (m : gmap Z (list Value)) :
  (push key v m).1 = default [] (m !! key) ++ [v].
Proof. reflexivity. Qed.

Lemma push_lookup (key : Z) (v : Value) (m : gmap Z (list Value)) :
  (push key v m).2 !! key = Some (default [] (m !! key) ++ [v]).
Proof. unfold push. simpl. apply lookup_insert_eq. Qed.

Lemma push_lookup_ne (key key' : Z) (v : Value) (m : gmap Z (list Value)) :
  key ≠ key' -> (push key v m).2 !! key' = m !! key'.
Proof. intros Hne. unfold push. simpl. by apply lookup_insert_ne. Qed.

Lemma quorum_true (N F : nat) (l : list Value) :
  quorum N F l = true <-> Z.of_nat N - Z.of_nat F <= Z.of_nat (length l).
Proof. unfold quorum. apply Z.leb_le. Qed.

Lemma quorum_false (N F : nat) (l : list Value) :
  quorum N F l = false <-> Z.of_nat (length l) < Z.of_nat N - Z.of_nat F.
Proof. unfold quorum. apply Z.leb_gt. Qed.

(** [c > N / 2] says [2 * c > N]. *)
Lemma gt_half_true (N c : nat) :
  gt_half N c = true <-> (N < 2 * c)%nat.
Proof.
  unfold gt_half. rewrite negb_true_iff, <- not_true_iff_false, Qle_bool_iff.
  unfold Qle, Qdiv, Qmult, Qinv, inject_Z. simpl. lia.
Qed.

Lemma gt_half_false (N c : nat) :
  gt_half N c = false <-> (2 * c <= N)%nat.
Proof.
  rewrite <- not_true_iff_false, gt_half_true. lia.
Qed.



Lemma coin_binary (rnd : Q) : coin rnd = V0 \/ coin rnd = V1.
Proof. unfold coin. destruct (Qle_bool rnd (1 # 2)); auto. Qed.

Lemma length_broadcast (BASE_NODE_PORT : Z) (N : nat) (m : Message) :
  length (broadcast BASE_NODE_PORT N m) = N.
Proof. unfold broadcast. by rewrite length_map, length_seq. Qed.

(** The [i]-th message of a broadcast goes to the port of node [i]. *)
Lemma broadcast_lookup (BASE_NODE_PORT : Z) (N : nat) (m : Message) (i : nat) :
  (i < N)%nat ->
  broadcast BASE_NODE_PORT N m !! i
  = Some {| port := BASE_NODE_PORT + Z.of_nat i; body := m |}.
Proof.
  intros Hi. unfold broadcast.
  rewrite list_lookup_fmap, lookup_seq_lt by exact Hi. reflexivity.
Qed.

Lemma broadcast_body (BASE_NODE_PORT : Z) (N : nat) (m : Message) (f : Fetch) :
  f ∈ broadcast BASE_NODE_PORT N m -> body f = m.
Proof.
  unfold broadcast. intros Hin.
  apply list_elem_of_fmap in Hin as (i & -> & _). reflexivity.
Qed.

(** [next_value] in terms of the counts alone. *)
Lemma next_value_cases (rnd : Q) (CN CY : nat) :
  next_value rnd CN CY
  = if decide (CY < CN)%nat then V0
    else if decide (CN < CY)%nat then V1 else coin rnd.
Proof.
  unfold next_value.
  destruct (decide (CY < CN)%nat) as [H|H].
  - replace (0 <? Z.of_nat CN + Z.of_nat CY) with true by (symmetry; apply Z.ltb_lt; lia).
    replace (Z.of_nat CY <? Z.of_nat CN) with true by (symmetry; apply Z.ltb_lt; lia).
    reflexivity.
  - replace (Z.of_nat CY <? Z.of_nat CN) with false by (symmetry; apply Z.ltb_ge; lia).
    rewrite andb_false_r.
    destruct (decide (CN < CY)%nat) as [H'|H'].
    + replace (0 <? Z.of_nat CN + Z.of_nat CY) with true by (symmetry; apply Z.ltb_lt; lia).
      replace (Z.of_nat CN <? Z.of_nat CY) with true by (symmetry; apply Z.ltb_lt; lia).
      reflexivity.
    + replace (Z.of_nat CN <? Z.of_nat CY) with false by (symmetry; apply Z.ltb_ge; lia).
      rewrite andb_false_r. reflexivity.
Qed.

(** ** The addition of rounds *)

(** An integer of magnitude up to 2^53 is held exactly. *)
Lemma round53_exact (z : Z) : Z.abs z <= 2 ^ 53 -> round53 z = z.
Proof.
  intros Hz. unfold round53.
  destruct (Z.eq_dec (Z.abs z) (2 ^ 53)) as [E|E].
  - rewrite E. change (Z.log2 (2 ^ 53) - 52 <=? 0) with false.
    change (Z.log2 (2 ^ 53) - 52) with 1. cbv zeta.
    change (2 ^ 53 mod 2 ^ 1) with 0. change (2 ^ 53 / 2 ^ 1) with (2 ^ 52).
    change (2 * 0 <? 2 ^ 1) with true. cbv iota.
    change (2 ^ 52 * 2 ^ 1) with (2 ^ 53). rewrite <- E.
    rewrite Z.mul_comm. apply Z.abs_sgn.
  - assert (Hlt : Z.abs z < 2 ^ 53) by lia.
    replace (Z.log2 (Z.abs z) - 52 <=? 0) with true; [reflexivity|].
    symmetry. apply Z.leb_le.
    destruct (Z.eq_dec (Z.abs z) 0) as [E0|E0]; [rewrite E0; simpl; lia|].
    assert (Z.log2 (Z.abs z) < 53) by (apply Z.log2_lt_pow2; lia). lia.
Qed.

(** [a + b] is the integer sum as long as that has magnitude up to 2^53. *)
Lemma js_add_exact (a b : Z) : Z.abs (a + b) <= 2 ^ 53 -> js_add a b = a + b.
Proof. apply round53_exact. Qed.

(** From 2^53 on adding one no longer gives the next integer. *)
Lemma js_add_at_2_53 : js_add (2 ^ 53) 1 = 2 ^ 53.
Proof. vm_compute. reflexivity. Qed.

(** [js_add] against the binary64 addition of the Standard Library's
    IEEE 754 specification, on rounds below, at and above 2^53. *)
Lemma js_add_binary64 :
  Forall (fun z : Z => js_add z 1 = binary64_add z 1)
    [0; 1; 7; -1; -2; 2 ^ 52; 2 ^ 53 - 2; 2 ^ 53 - 1; 2 ^ 53; 2 ^ 53 + 2;
     2 ^ 53 + 4; 2 ^ 54 - 2; 2 ^ 54; 2 ^ 54 + 4; 2 ^ 60; 2 ^ 100 + 2 ^ 80;
     - 2 ^ 53 + 1; - 2 ^ 53; - 2 ^ 53 - 2; - 2 ^ 53 - 4; - 2 ^ 54;
     - 2 ^ 54 - 4; - 2 ^ 60].
Proof. repeat constructor. Qed.

(** ** The branches of the [/message] handler *)

Section message_branches.

Variable tags : Tags.
Variable BASE_NODE_PORT : Z.
Variables N F : nat.
Variable rnd : Q.
Variable m : Message.
Variable nd : Node.

(** A killed or faulty node leaves the handler at its guard. *)
Lemma onMessage_guarded (isFaulty : bool) :
  killed (currentState nd) = true \/ isFaulty = true ->
  onMessage tags BASE_NODE_PORT N F isFaulty rnd m nd = (nd, []).
Proof.
  intros [H| ->]; unfold onMessage.
  - rewrite H. reflexivity.
  - rewrite andb_false_r. reflexivity.
Qed.

(** A [type] that is neither of the two compared with falls through. *)
Lemma onMessage_unhandled (isFaulty : bool) :
  msg_type m <> handled_propose tags ->
  msg_type m <> handled_vote tags ->
  onMessage tags BASE_NODE_PORT N F isFaulty rnd m nd = (nd, []).
Proof.
  intros Hp Hv. unfold onMessage.
  apply String.eqb_neq in Hp, Hv. rewrite Hp, Hv.
  destruct (negb (killed (currentState nd)) && negb isFaulty); reflexivity.
Qed.

(** The first branch. *)
Lemma onMessage_propose :
  killed (currentState nd) = false ->
  msg_type m = handled_propose tags ->
  let proposal := default [] (proposals nd !! msg_k m) ++ [msg_x m] in
  onMessage tags BASE_NODE_PORT N F false rnd m nd
  = ({| proposals := <[msg_k m := proposal]> (proposals nd);
        votes := votes nd; currentState := currentState nd |},
     if quorum N F proposal
     then broadcast BASE_NODE_PORT N
            {| msg_k := msg_k m; msg_x := vote_value N proposal;
               msg_type := sent_vote tags |}
     else []).
Proof.
  intros Hk Hp. unfold onMessage, push.
  apply String.eqb_eq in Hp. rewrite Hk, Hp. simpl.
  destruct (quorum N F _); reflexivity.
Qed.

(** The second branch. *)
Lemma onMessage_vote :
  killed (currentState nd) = false ->
  msg_type m <> handled_propose tags ->
  msg_type m = handled_vote tags ->
  let st := currentState nd in
  let vote := default [] (votes nd !! msg_k m) ++ [msg_x m] in
  let votes' := <[msg_k m := vote]> (votes nd) in
  let CN := count0 vote in
  let CY := count1 vote in
  onMessage tags BASE_NODE_PORT N F false rnd m nd
  = if quorum N F vote then
      if Z.of_nat F + 1 <=? Z.of_nat CN then
        ({| proposals := proposals nd; votes := votes';
            currentState := {| killed := killed st; x := Some V0;
                               decided := Some true; k := k st |} |}, [])
      else if Z.of_nat F + 1 <=? Z.of_nat CY then
        ({| proposals := proposals nd; votes := votes';
            currentState := {| killed := killed st; x := Some V1;
                               decided := Some true; k := k st |} |}, [])
      else
        ({| proposals := proposals nd; votes := votes';
            currentState := {| killed := killed st;
                               x := Some (next_value rnd CN CY);
                               decided := decided st;
                               k := Some (js_add (msg_k m) 1) |} |},
         broadcast BASE_NODE_PORT N
           {| msg_k := js_add (msg_k m) 1; msg_x := next_value rnd CN CY;
              msg_type := sent_propose tags |})
    else
      ({| proposals := proposals nd; votes := votes';
          currentState := st |}, []).
Proof.
  intros Hk Hp Hv. unfold onMessage, push.
  apply String.eqb_neq in Hp. apply String.eqb_eq in Hv.
  rewrite Hk, Hp, Hv. simpl. reflexivity.
Qed.

End message_branches.

(** The killed flag is only ever raised. *)
Lemma step_killed tags BASE_NODE_PORT N F initialValue isFaulty o nd :
  killed (currentState nd) = true ->
  killed (currentState (step tags BASE_NODE_PORT N F initialValue isFaulty o nd).1) = true.
Proof.
  intros H. destruct o as [|rnd m|]; simpl.
  - unfold start_body. destruct (negb isFaulty); exact H.
  - rewrite onMessage_guarded by (left; exact H). exact H.
  - reflexivity.
Qed.

Lemma run_killed tags BASE_NODE_PORT N F initialValue isFaulty ops nd :
  killed (currentState nd) = true ->
  killed (currentState (run tags BASE_NODE_PORT N F initialValue isFaulty ops nd).1) = true.
Proof.
  revert nd. induction ops as [|o ops IH]; intros nd H; [exact H|].
  simpl.
  pose proof (step_killed tags BASE_NODE_PORT N F initialValue isFaulty o nd H) as Hs.
  destruct (step _ _ _ _ _ _ o nd) as [nd1 out1]. simpl in Hs.
  specialize (IH nd1 Hs).
  destruct (run _ _ _ _ _ _ ops nd1) as [nd2 out2]. exact IH.
Qed.

(** ** The vote rule *)




(** ** After a decision *)

(** C2 as stated fails: four nodes, one fault.  After the votes 1, 1, "?"
    and 0 of round 1 the node has decided 1; one more vote for 0 in the
    same round brings the count of zeros to [F + 1 = 2] and, the zeros being
    looked at first, [x] is overwritten with 0 while [decided] stays true. *)
Lemma decided_x_overwritten :
  let nd := (run tags_part_000 8000 4 1 V0 false
               [OpStart; deliver (vote_msg 1 V1); deliver (vote_msg 1 V1);
                deliver (vote_msg 1 VQ); deliver (vote_msg 1 V0)]
               (init V0)).1 in
  let st := currentState nd in
  let st' := currentState
               (onMessage tags_part_000 8000 4 1 false (1 # 4)%Q
                  (vote_msg 1 V0) nd).1 in
  killed st = false /\ decided st = Some true /\ x st = Some V1
  /\ x st' = Some V0 /\ decided st' = Some true
  /\ ~ (x st' = x st /\ decided st' = decided st).
Proof.
  vm_compute. repeat split; try reflexivity.
  intros [H _]. discriminate H.
Qed.

(** C2, amended.  On a node that is neither faulty nor killed and has
    [decided = true], a message of any kind and round leaves [decided] at
    true; it leaves [x] as it is unless it is a vote that brings the tally
    of its round to [N - F] entries or more (the handler does not look at
    [decided], so such a vote rewrites [x] by the vote rule). *)
Theorem decided_stays_true
    (tags : Tags) (BASE_NODE_PORT : Z) (N F : nat) (rnd : Q)
    (m : Message) (nd : Node) :
  killed (currentState nd) = false ->
  decided (currentState nd) = Some true ->
  let tally := default [] (votes nd !! msg_k m) ++ [msg_x m] in
  let st' := currentState
               (onMessage tags BASE_NODE_PORT N F false rnd m nd).1 in
  decided st' = Some true
  /\ (msg_type m = handled_propose tags
      \/ msg_type m <> handled_vote tags
      \/ Z.of_nat (length tally) < Z.of_nat N - Z.of_nat F ->
      x st' = x (currentState nd)).
Proof.
  intros Hk Hd tally st'. subst st'.
  destruct (String.eqb_spec (msg_type m) (handled_propose tags)) as [Hp|Hp].
  - rewrite onMessage_propose by assumption. simpl. auto.
  - destruct (String.eqb_spec (msg_type m) (handled_vote tags)) as [Hv|Hv].
    + rewrite onMessage_vote by assumption. fold tally.
      destruct (quorum N F tally) eqn:Hq.
      * split.
        { destruct (Z.of_nat F + 1 <=? Z.of_nat (count0 tally));
            [|destruct (Z.of_nat F + 1 <=? Z.of_nat (count1 tally))];
            simpl; auto. }
        intros [H|[H|H]]; [contradiction|contradiction|].
        apply quorum_true in Hq. lia.
      * simpl. auto.
    + rewrite onMessage_unhandled by assumption. simpl. auto.
Qed.

(** A decided node below the quorum of a later round: the vote is tallied
    and nothing else moves. *)
Lemma decided_stays_true_witness :
  let nd := {| proposals := ∅; votes := {[ 1 := [V1; V1; VQ] ]};
               currentState := {| killed := false; x := Some V1;
                                  decided := Some true; k := Some 1 |} |} in
  let st' := currentState
               (onMessage tags_part_000 8000 4 1 false (1 # 4)%Q
                  (vote_msg 2 V0) nd).1 in
  decided st' = Some true /\ x st' = Some V1.
Proof.
  intros nd st'.
  destruct (decided_stays_true tags_part_000 8000 4 1 (1 # 4)%Q
              (vote_msg 2 V0) nd) as [Hd Hx].
  - reflexivity.
  - reflexivity.
  - split; [exact Hd|].
    apply Hx. right. right. vm_compute. reflexivity.
Defined.

(** ** Proposals *)

(** C3 as stated fails: two nodes, one fault, threshold [N - F = 1].  The
    first proposal of round 1 already reached the threshold; the second one
    makes the tally two entries long, which is neither at the threshold nor
    a crossing of it, and the votes are broadcast once more. *)
Lemma vote_rebroadcast_past_threshold :
  let nd := (run tags_part_000 8000 2 1 V0 false
               [OpStart; deliver (propose_msg 1 V0)] (init V0)).1 in
  let before := length (default [] (proposals nd !! 1)) in
  let out := (onMessage tags_part_000 8000 2 1 false (1 # 4)%Q
                (propose_msg 1 V0) nd).2 in
  killed (currentState nd) = false
  /\ before = 1%nat
  /\ out = [ {| port := 8000; body := vote_msg 1 V0 |};
             {| port := 8001; body := vote_msg 1 V0 |} ]
  /\ ~ at_or_just_crossed 2 1 before (S before).
Proof.
  vm_compute. repeat split; try reflexivity.
  intros [H|[H _]]; discriminate H.
Qed.

(** C3, amended.  On a node that is neither faulty nor killed, a message of
    the handled propose kind for round [msg_k m] is followed by a broadcast
    exactly when the round's proposal tally, the new value appended, has
    [N - F] entries or more, at the threshold or anywhere above it: then one
    message goes to each of the [N] ports, carrying the round, the sent vote
    tag and [x'], which is 0 if [CN > N / 2], else 1 if [CY > N / 2], else
    ["?"]; below [N - F] nothing is sent. *)
Theorem propose_broadcast_rule
    (tags : Tags) (BASE_NODE_PORT : Z) (N F : nat) (rnd : Q)
    (m : Message) (nd : Node) :
  killed (currentState nd) = false ->
  msg_type m = handled_propose tags ->
  let tally := default [] (proposals nd !! msg_k m) ++ [msg_x m] in
  let CN := count0 tally in
  let CY := count1 tally in
  let x' := if decide (N < 2 * CN)%nat then V0
            else if decide (N < 2 * CY)%nat then V1 else VQ in
  let vote := {| msg_k := msg_k m; msg_x := x'; msg_type := sent_vote tags |} in
  let out := (onMessage tags BASE_NODE_PORT N F false rnd m nd).2 in
  (Z.of_nat N - Z.of_nat F <= Z.of_nat (length tally) ->
   length out = N
   /\ forall i : nat, (i < N)%nat ->
        out !! i = Some {| port := BASE_NODE_PORT + Z.of_nat i; body := vote |})
  /\ (Z.of_nat (length tally) < Z.of_nat N - Z.of_nat F -> out = []).
Proof.
  intros Hk Hp tally CN CY x' vote out. subst out.
  rewrite onMessage_propose by assumption. fold tally. simpl.
  assert (Hx : vote_value N tally = x').
  { unfold vote_value, x'. fold CN CY.
    destruct (decide (N < 2 * CN)%nat) as [H|H].
    - apply gt_half_true in H. rewrite H. reflexivity.
    - replace (gt_half N CN) with false
        by (symmetry; apply gt_half_false; lia).
      destruct (decide (N < 2 * CY)%nat) as [H'|H'].
      + apply gt_half_true in H'. rewrite H'. reflexivity.
      + replace (gt_half N CY) with false
          by (symmetry; apply gt_half_false; lia).
        reflexivity. }
  rewrite Hx. fold vote. split.
  - intros Hq. apply quorum_true in Hq. rewrite Hq.
    split; [apply length_broadcast|].
    intros i Hi. apply broadcast_lookup. exact Hi.
  - intros Hq. apply quorum_false in Hq. rewrite Hq. reflexivity.
Qed.

(** Four nodes, one fault: the third proposal of round 1 reaches the
    threshold with three zeros, and the node at index 2 is sent a vote
    for 0. *)
Lemma propose_broadcast_rule_witness :
  let nd := {| proposals := {[ 1 := [V0; V0] ]}; votes := ∅;
               currentState := {| killed := false; x := Some V0;
                                  decided := Some false; k := Some 1 |} |} in
  let out := (onMessage tags_part_000 8000 4 1 false (1 # 4)%Q
                (propose_msg 1 V0) nd).2 in
  length out = 4%nat
  /\ out !! 2%nat = Some {| port := 8002; body := vote_msg 1 V0 |}.
Proof.
  intros nd out.
  destruct (propose_broadcast_rule tags_part_000 8000 4 1 (1 # 4)%Q
              (propose_msg 1 V0) nd) as [H _].
  - reflexivity.
  - reflexivity.
  - destruct H as [Hlen Hi].
    + vm_compute. discriminate.
    + split; [exact Hlen|]. apply (Hi 2%nat). lia.
Defined.

(** ** The round number *)

(** C4 as stated fails: one node, no fault.  Votes for rounds 1 and 2 take
    the node to round 3; a late vote for round 1 then makes the round-1
    tally two entries long, no value has [F + 1] votes, and [k] is set to
    [1 + 1 = 2]: it goes down, and not by a step of one up. *)
Lemma round_number_goes_back :
  let nd := (run tags_part_000 8000 1 0 V0 false
               [OpStart; deliver (vote_msg 1 VQ); deliver (vote_msg 2 VQ)]
               (init V0)).1 in
  let st := currentState nd in
  let st' := currentState
               (onMessage tags_part_000 8000 1 0 false (1 # 4)%Q
                  (vote_msg 1 VQ) nd).1 in
  killed st = false /\ k st = Some 3 /\ k st' = Some 2
  /\ ~ (k st' = k st \/ k st' = Some (3 + 1)).
Proof.
  vm_compute. repeat split; try reflexivity.
  intros [H|H]; discriminate H.
Qed.

(** C4, amended.  On a node that is neither faulty nor killed, [/start]
    sets [k] to 1, and a [/message] request changes [k] in one case only:
    a vote that brings the tally of its round to [N - F] entries or more
    with neither value at [F + 1] votes sets [k] to the round carried by
    the message plus one (the sum of JS numbers, the next integer while
    that is at most 2^53 in magnitude); every other message leaves [k] as
    it is.  So [k] goes up by exactly one when the round of such a vote is
    the node's own, and jumps or goes back otherwise. *)
Theorem round_number_rule
    (tags : Tags) (BASE_NODE_PORT : Z) (N F : nat) (initialValue : Value)
    (rnd : Q) (m : Message) (nd : Node) :
  handled_propose tags <> handled_vote tags ->
  killed (currentState nd) = false ->
  let st := currentState nd in
  let vote := tally (votes nd) (msg_k m) ++ [msg_x m] in
  let advances :=
    msg_type m = handled_vote tags
    /\ Z.of_nat N - Z.of_nat F <= Z.of_nat (length vote)
    /\ (count0 vote < F + 1)%nat
    /\ (count1 vote < F + 1)%nat in
  let st' := currentState
               (onMessage tags BASE_NODE_PORT N F false rnd m nd).1 in
  k (currentState
       (start_body tags BASE_NODE_PORT N initialValue false nd).1) = Some 1
  /\ (advances -> k st' = Some (js_add (msg_k m) 1))
  /\ (~ advances -> k st' = k st)
  /\ (forall r : Z, k st = Some r -> msg_k m = r ->
      Z.abs (r + 1) <= 2 ^ 53 ->
      (advances -> k st' = Some (r + 1))
      /\ (~ advances -> k st' = Some r)).
Proof.
  intros Hdist Hk st vote advances st'.
  assert (Hyes : advances -> k st' = Some (js_add (msg_k m) 1)).
  { intros (Hv & Hq & H0 & H1). subst st'.
    assert (Hp : msg_type m <> handled_propose tags) by congruence.
    rewrite onMessage_vote by assumption.
    fold (tally (votes nd) (msg_k m)). fold vote.
    apply quorum_true in Hq. rewrite Hq.
    replace (Z.of_nat F + 1 <=? Z.of_nat (count0 vote)) with false
      by (symmetry; apply Z.leb_gt; lia).
    replace (Z.of_nat F + 1 <=? Z.of_nat (count1 vote)) with false
      by (symmetry; apply Z.leb_gt; lia).
    reflexivity. }
  assert (Hno : ~ advances -> k st' = k st).
  { intros Hn. subst st st'.
    destruct (String.eqb_spec (msg_type m) (handled_propose tags)) as [Hp|Hp].
    - rewrite onMessage_propose by assumption. reflexivity.
    - destruct (String.eqb_spec (msg_type m) (handled_vote tags)) as [Hv|Hv].
      + rewrite onMessage_vote by assumption.
        fold (tally (votes nd) (msg_k m)). fold vote.
        destruct (quorum N F vote) eqn:Hq; [|reflexivity].
        destruct (Z.of_nat F + 1 <=? Z.of_nat (count0 vote)) eqn:H0;
          [reflexivity|].
        destruct (Z.of_nat F + 1 <=? Z.of_nat (count1 vote)) eqn:H1;
          [reflexivity|].
        exfalso. apply Hn. unfold advances.
        apply quorum_true in Hq. apply Z.leb_gt in H0, H1.
        split; [exact Hv|]. split; [exact Hq|]. lia.
      + rewrite onMessage_unhandled by assumption. reflexivity. }
  split; [reflexivity|]. split; [exact Hyes|]. split; [exact Hno|].
  intros r Hr Hm Hsafe. split.
  - intros Ha. rewrite (Hyes Ha), Hm. rewrite js_add_exact by exact Hsafe.
    reflexivity.
  - intros Hn. rewrite (Hno Hn). exact Hr.
Qed.

(** One node, no fault, in round 1: a ["?"] vote for round 1 reaches the
    quorum without a decision and the node moves to round 2. *)
Lemma round_number_rule_witness :
  let nd := (start_body tags_part_000 8000 1 V0 false (init V0)).1 in
  let st' := currentState
               (onMessage tags_part_000 8000 1 0 false (1 # 4)%Q
                  (vote_msg 1 VQ) nd).1 in
  k (currentState nd) = Some 1 /\ k st' = Some (1 + 1).
Proof.
  intros nd st'.
  destruct (round_number_rule tags_part_000 8000 1 0 V0 (1 # 4)%Q
              (vote_msg 1 VQ) nd) as (_ & _ & _ & H).
  - discriminate.
  - reflexivity.
  - split; [reflexivity|].
    destruct (H 1) as [Ha _].
    + reflexivity.
    + reflexivity.
    + vm_compute. discriminate.
    + apply Ha. vm_compute. repeat split; try discriminate; lia.
Defined.

(** ** Start *)

(** The wait ends at the first poll that finds the nodes ready. *)
Lemma await_ready_first (ready : nat -> bool) (n i fuel : nat) :
  (forall j : nat, (i <= j < i + n)%nat -> ready j = false) ->
  ready (i + n)%nat = true ->
  (n < fuel)%nat ->
  await_ready ready i fuel = Some (i + n)%nat.
Proof.
  revert i fuel. induction n as [|n IH]; intros i fuel Hno Hyes Hfuel.
  - destruct fuel as [|fuel]; [lia|]. simpl.
    replace (i + 0)%nat with i in * by lia. rewrite Hyes. reflexivity.
  - destruct fuel as [|fuel]; [lia|]. simpl.
    rewrite (Hno i) by lia.
    replace (i + S n)%nat with (S i + n)%nat in * by lia.
    apply IH; [|exact Hyes|lia].
    intros j Hj. apply Hno. lia.
Qed.

(** Once the nodes are ready, [/start] gets to its body. *)
Lemma start_returns tags BASE_NODE_PORT N initialValue isFaulty
    (ready : nat -> bool) (n fuel : nat) (nd : Node) :
  (forall j : nat, (j < n)%nat -> ready j = false) ->
  ready n = true ->
  (n < fuel)%nat ->
  start tags BASE_NODE_PORT N initialValue isFaulty ready fuel nd
  = Some (start_body tags BASE_NODE_PORT N initialValue isFaulty nd).
Proof.
  intros Hno Hyes Hfuel. unfold start.
  rewrite (await_ready_first ready n 0 fuel); [reflexivity| |exact Hyes|exact Hfuel].
  intros j Hj. apply Hno. lia.
Qed.

(** On a node that is not faulty [/start] sets [k], [x] and [decided],
    leaves [killed] and the tallies alone, and sends one message per node,
    the [i]-th to the port of node [i], with round 1, the initial value and
    the sent propose tag. *)
Lemma start_body_nonfaulty tags BASE_NODE_PORT N initialValue (nd : Node) :
  let r := start_body tags BASE_NODE_PORT N initialValue false nd in
  let proposal := {| msg_k := 1; msg_x := initialValue;
                     msg_type := sent_propose tags |} in
  currentState r.1 = {| killed := killed (currentState nd);
                        x := Some initialValue; decided := Some false;
                        k := Some 1 |}
  /\ proposals r.1 = proposals nd /\ votes r.1 = votes nd
  /\ length r.2 = N
  /\ forall i : nat, (i < N)%nat ->
       r.2 !! i = Some {| port := BASE_NODE_PORT + Z.of_nat i;
                          body := proposal |}.
Proof.
  simpl. repeat split; [apply length_broadcast|].
  intros i Hi. apply broadcast_lookup. exact Hi.
Qed.

(** On a faulty node [/start] sets the three fields to null and sends
    nothing. *)
Lemma start_body_faulty tags BASE_NODE_PORT N initialValue (nd : Node) :
  let r := start_body tags BASE_NODE_PORT N initialValue true nd in
  currentState r.1 = {| killed := killed (currentState nd); x := None;
                        decided := None; k := None |}
  /\ proposals r.1 = proposals nd /\ votes r.1 = votes nd
  /\ r.2 = [].
Proof. simpl. repeat split. Qed.

(** C5.  [/start] on a node that is not faulty sets [k = 1],
    [x = initialValue], [decided = false] and sends [N] messages, one per
    node, with payload [{k: 1, x: initialValue}]; on a faulty node it sets
    the three fields to null and sends nothing (the three lemmas above, for
    both copies of the node).  The messages are to be of the propose kind,
    and in [node.ts] they are not: they are tagged ["2P"], while the
    [/message] handler of the same file takes a proposal to be a message
    tagged ["Propose"].  Four nodes, one fault,
    initial value 0: each of the four messages sent by [/start], handed to
    the handler of a started node, leaves its tallies and state as they
    were and triggers nothing; in the second copy the same message is
    tallied as a proposal of round 1. *)
Theorem start_node_ts_tag_not_handled :
  let r := start_body tags_node_ts 8000 4 V0 false (init V0) in
  let r' := start_body tags_part_000 8000 4 V0 false (init V0) in
  map (fun f : Fetch => msg_type (body f)) r.2
  = ["2P"; "2P"; "2P"; "2P"]%string
  /\ Forall (fun f : Fetch =>
               msg_type (body f) <> handled_propose tags_node_ts
               /\ onMessage tags_node_ts 8000 4 1 false (1 # 4)%Q (body f) r.1
                  = (r.1, [])) r.2
  /\ Forall (fun f : Fetch =>
               msg_type (body f) = handled_propose tags_part_000
               /\ proposals
                    (onMessage tags_part_000 8000 4 1 false (1 # 4)%Q
                       (body f) r'.1).1 !! 1
                  = Some [V0]) r'.2.
Proof.
  intros r r'. split; [reflexivity|]. split.
  - subst r. simpl. repeat constructor; try discriminate;
      apply onMessage_unhandled; discriminate.
  - subst r'. simpl. repeat constructor.
Qed.

(** ** Faulty nodes *)

(** A faulty node never fills its tallies, and its killed flag is raised by
    [/stop] alone. *)
Lemma run_faulty tags BASE_NODE_PORT N F initialValue (ops : list Op) (nd : Node) :
  let nd' := (run tags BASE_NODE_PORT N F initialValue true ops nd).1 in
  proposals nd' = proposals nd
  /\ votes nd' = votes nd
  /\ killed (currentState nd') = killed (currentState nd) || existsb is_stop ops.
Proof.
  revert nd. induction ops as [|o ops IH]; intros nd; simpl.
  - rewrite orb_false_r. auto.
  - destruct o as [|rnd m|]; simpl.
    + specialize (IH {| proposals := proposals nd; votes := votes nd;
                        currentState := {| killed := killed (currentState nd);
                                           x := None; decided := None;
                                           k := None |} |}).
      destruct (run _ _ _ _ _ _ ops _) as [nd2 out2]. exact IH.
    + rewrite onMessage_guarded by (right; reflexivity).
      specialize (IH nd).
      destruct (run _ _ _ _ _ _ ops _) as [nd2 out2]. exact IH.
    + specialize (IH (stop nd)).
      destruct (run _ _ _ _ _ _ ops _) as [nd2 out2]. simpl in *.
      rewrite orb_true_r. exact IH.
Qed.

(** C6.  Whatever requests a faulty node has served since it was created,
    [/getState] sends the current killed flag with [x], [decided] and [k]
    null; the flag is set exactly when one of the requests was a [/stop]. *)
Theorem faulty_getState_inert
    (tags : Tags) (BASE_NODE_PORT : Z) (N F : nat) (initialValue : Value)
    (ops : list Op) :
  let nd := (run tags BASE_NODE_PORT N F initialValue true ops
               (init initialValue)).1 in
  getState true nd = {| killed := killed (currentState nd); x := None;
                        decided := None; k := None |}
  /\ killed (getState true nd) = existsb is_stop ops.
Proof.
  intros nd. split; [reflexivity|].
  destruct (run_faulty tags BASE_NODE_PORT N F initialValue ops
              (init initialValue)) as (_ & _ & H).
  exact H.
Qed.

(** ** Stop *)

(** Messages alone do nothing to a killed node. *)
Lemma run_deliveries_killed tags BASE_NODE_PORT N F initialValue isFaulty
    (ms : list (Q * Message)) (nd : Node) :
  killed (currentState nd) = true ->
  run tags BASE_NODE_PORT N F initialValue isFaulty (deliveries ms) nd = (nd, []).
Proof.
  intros H. induction ms as [|[rnd m] ms IH]; [reflexivity|].
  change (deliveries ((rnd, m) :: ms)) with (OpMessage rnd m :: deliveries ms).
  cbn [run step]. rewrite onMessage_guarded by (left; exact H).
  rewrite IH. reflexivity.
Qed.

(** C7.  [/stop] sets [killed] to true, [x] and [decided] to null and [k]
    to 0, and keeps the tallies.  From then on, whatever requests come in
    between, a [/message] request returns the node as it found it and sends
    nothing; in particular a run of messages after the stop leaves the
    stopped node as it is. *)
Theorem stop_then_messages_ignored
    (tags : Tags) (BASE_NODE_PORT : Z) (N F : nat) (initialValue : Value)
    (isFaulty : bool) (ops : list Op) (ms : list (Q * Message))
    (rnd : Q) (m : Message) (nd : Node) :
  let later := (run tags BASE_NODE_PORT N F initialValue isFaulty ops
                  (stop nd)).1 in
  currentState (stop nd) = {| killed := true; x := None; decided := None;
                              k := Some 0 |}
  /\ proposals (stop nd) = proposals nd
  /\ votes (stop nd) = votes nd
  /\ onMessage tags BASE_NODE_PORT N F isFaulty rnd m later = (later, [])
  /\ run tags BASE_NODE_PORT N F initialValue isFaulty (deliveries ms) (stop nd)
     = (stop nd, []).
Proof.
  intros later. repeat split.
  - apply onMessage_guarded. left. apply run_killed. reflexivity.
  - apply run_deliveries_killed. reflexivity.
Qed.

(** ** Other kinds of message *)

(** C8.  On a node that is neither faulty nor killed, a message whose kind
    is neither the handled propose kind nor the handled vote kind is
    answered without a change to the tallies or the state and without a
    message sent. *)
Theorem unhandled_kind_ignored
    (tags : Tags) (BASE_NODE_PORT : Z) (N F : nat) (rnd : Q)
    (m : Message) (nd : Node) :
  killed (currentState nd) = false ->
  msg_type m <> handled_propose tags ->
  msg_type m <> handled_vote tags ->
  onMessage tags BASE_NODE_PORT N F false rnd m nd = (nd, []).
Proof.
  intros _ Hp Hv. apply onMessage_unhandled; assumption.
Qed.

Lemma unhandled_kind_ignored_witness :
  let nd := (start_body tags_part_000 8000 4 V0 false (init V0)).1 in
  let m := {| msg_k := 1; msg_x := V0; msg_type := "commit" |} in
  onMessage tags_part_000 8000 4 1 false (1 # 4)%Q m nd = (nd, []).
Proof.
  intros nd m.
  apply (unhandled_kind_ignored tags_part_000 8000 4 1 (1 # 4)%Q m nd).
  - reflexivity.
  - discriminate.
  - discriminate.
Defined.

(** ** What the two handled branches leave alone *)

(** C9.  On a node that is neither faulty nor killed, a message of the
    handled propose kind leaves the state record and the vote tallies as
    they were; the value is appended to the proposal tally of its round and
    the other rounds are not touched. *)
Theorem propose_keeps_state
    (tags : Tags) (BASE_NODE_PORT : Z) (N F : nat) (rnd : Q)
    (m : Message) (nd : Node) :
  killed (currentState nd) = false ->
  msg_type m = handled_propose tags ->
  let nd' := (onMessage tags BASE_NODE_PORT N F false rnd m nd).1 in
  currentState nd' = currentState nd
  /\ votes nd' = votes nd
  /\ proposals nd' !! msg_k m
     = Some (default [] (proposals nd !! msg_k m) ++ [msg_x m])
  /\ forall r : Z, r <> msg_k m -> proposals nd' !! r = proposals nd !! r.
Proof.
  intros Hk Hp nd'. subst nd'.
  rewrite onMessage_propose by assumption. simpl.
  repeat split.
  - apply lookup_insert_eq.
  - intros r Hr. apply lookup_insert_ne. congruence.
Qed.

Lemma propose_keeps_state_witness :
  let nd := (start_body tags_part_000 8000 4 V1 false (init V1)).1 in
  let nd' := (onMessage tags_part_000 8000 4 1 false (1 # 4)%Q
                (propose_msg 1 V0) nd).1 in
  currentState nd' = {| killed := false; x := Some V1; decided := Some false;
                        k := Some 1 |}
  /\ proposals nd' !! 1 = Some [V0].
Proof.
  intros nd nd'.
  destruct (propose_keeps_state tags_part_000 8000 4 1 (1 # 4)%Q
              (propose_msg 1 V0) nd) as (Hs & _ & Ht & _).
  - reflexivity.
  - reflexivity.
  - split; [exact Hs|exact Ht].
Defined.




(** ** Runs, step by step *)

Lemma run_cons tags BASE_NODE_PORT N F initialValue isFaulty o ops nd :
  run tags BASE_NODE_PORT N F initialValue isFaulty (o :: ops) nd
  = let r1 := step tags BASE_NODE_PORT N F initialValue isFaulty o nd in
    let r2 := run tags BASE_NODE_PORT N F initialValue isFaulty ops r1.1 in
    (r2.1, r1.2 ++ r2.2).
Proof.
  simpl. destruct (step _ _ _ _ _ _ o nd) as [nd1 out1]. simpl.
  destruct (run _ _ _ _ _ _ ops nd1) as [nd2 out2]. reflexivity.
Qed.

Lemma run_app tags BASE_NODE_PORT N F initialValue isFaulty ops1 ops2 nd :
  run tags BASE_NODE_PORT N F initialValue isFaulty (ops1 ++ ops2) nd
  = let r1 := run tags BASE_NODE_PORT N F initialValue isFaulty ops1 nd in
    let r2 := run tags BASE_NODE_PORT N F initialValue isFaulty ops2 r1.1 in
    (r2.1, r1.2 ++ r2.2).
Proof.
  revert nd. induction ops1 as [|o ops1 IH]; intros nd.
  - simpl. destruct (run _ _ _ _ _ _ ops2 nd). reflexivity.
  - rewrite <- app_comm_cons. rewrite !run_cons. cbv zeta.
    rewrite IH. cbv zeta. simpl. rewrite app_assoc. reflexivity.
Qed.

(** What every request keeps, every run keeps. *)
Lemma run_invariant tags BASE_NODE_PORT N F initialValue isFaulty
    (P : Node -> Prop) :
  (forall o nd, P nd ->
     P (step tags BASE_NODE_PORT N F initialValue isFaulty o nd).1) ->
  forall ops nd, P nd ->
    P (run tags BASE_NODE_PORT N F initialValue isFaulty ops nd).1.
Proof.
  intros Hstep ops. induction ops as [|o ops IH]; intros nd HP; [exact HP|].
  rewrite run_cons. cbv zeta. simpl. apply IH, Hstep, HP.
Qed.

(** What holds of the fetches of every request holds of those of a run. *)
Lemma run_output tags BASE_NODE_PORT N F initialValue isFaulty
    (Q : Fetch -> Prop) :
  (forall o nd,
     Forall Q (step tags BASE_NODE_PORT N F initialValue isFaulty o nd).2) ->
  forall ops nd,
    Forall Q (run tags BASE_NODE_PORT N F initialValue isFaulty ops nd).2.
Proof.
  intros Hstep ops. induction ops as [|o ops IH]; intros nd; [constructor|].
  rewrite run_cons. cbv zeta. simpl. apply Forall_app. split; [apply Hstep|apply IH].
Qed.

(** The maps after a [/message] request: both as before, or the value
    appended to the round's tally in the one the kind selects. *)
Lemma onMessage_maps tags BASE_NODE_PORT N F isFaulty rnd m nd :
  let nd' := (onMessage tags BASE_NODE_PORT N F isFaulty rnd m nd).1 in
  let grown (t : gmap Z (list Value)) :=
    <[msg_k m := tally t (msg_k m) ++ [msg_x m]]> t in
  (proposals nd' = proposals nd /\ votes nd' = votes nd)
  \/ (msg_type m = handled_propose tags
      /\ proposals nd' = grown (proposals nd) /\ votes nd' = votes nd)
  \/ (msg_type m = handled_vote tags
      /\ proposals nd' = proposals nd /\ votes nd' = grown (votes nd)).
Proof.
  intros nd' grown. subst nd'.
  destruct (killed (currentState nd)) eqn:Hk;
    [rewrite onMessage_guarded by (left; exact Hk); auto|].
  destruct isFaulty;
    [rewrite onMessage_guarded by (right; reflexivity); auto|].
  destruct (String.eqb_spec (msg_type m) (handled_propose tags)) as [Hp|Hp].
  - rewrite onMessage_propose by assumption. right. left. auto.
  - destruct (String.eqb_spec (msg_type m) (handled_vote tags)) as [Hv|Hv].
    + rewrite onMessage_vote by assumption. right. right.
      split; [exact Hv|].
      destruct (quorum N F _); [|auto].
      destruct (Z.of_nat F + 1 <=? _); [auto|].
      destruct (Z.of_nat F + 1 <=? _); auto.
    + rewrite onMessage_unhandled by assumption. auto.
Qed.

Lemma onMessage_killed tags BASE_NODE_PORT N F isFaulty rnd m nd :
  killed (currentState (onMessage tags BASE_NODE_PORT N F isFaulty rnd m nd).1)
  = killed (currentState nd).
Proof.
  destruct (killed (currentState nd)) eqn:Hk;
    [rewrite onMessage_guarded by (left; exact Hk); exact Hk|].
  destruct isFaulty;
    [rewrite onMessage_guarded by (right; reflexivity); exact Hk|].
  destruct (String.eqb_spec (msg_type m) (handled_propose tags)) as [Hp|Hp].
  - rewrite onMessage_propose by assumption. exact Hk.
  - destruct (String.eqb_spec (msg_type m) (handled_vote tags)) as [Hv|Hv].
    + rewrite onMessage_vote by assumption.
      destruct (quorum N F _); [|exact Hk].
      destruct (Z.of_nat F + 1 <=? _); [exact Hk|].
      destruct (Z.of_nat F + 1 <=? _); exact Hk.
    + rewrite onMessage_unhandled by assumption. exact Hk.
Qed.

Lemma tally_grown (t : gmap Z (list Value)) (key r : Z) (v : Value) :
  tally (<[key := tally t key ++ [v]]> t) r
  = if decide (key = r) then tally t r ++ [v] else tally t r.
Proof.
  unfold tally at 1. destruct (decide (key = r)) as [->|Hne].
  - rewrite lookup_insert_eq. reflexivity.
  - rewrite lookup_insert_ne by exact Hne. reflexivity.
Qed.

(** The maps are written by the [/message] handler alone. *)
Lemma step_maps tags BASE_NODE_PORT N F initialValue isFaulty o nd :
  let nd' := (step tags BASE_NODE_PORT N F initialValue isFaulty o nd).1 in
  (proposals nd' = proposals nd /\ votes nd' = votes nd)
  \/ (exists key v,
        proposals nd' = <[key := tally (proposals nd) key ++ [v]]> (proposals nd)
        /\ votes nd' = votes nd)
  \/ (exists key v,
        proposals nd' = proposals nd
        /\ votes nd' = <[key := tally (votes nd) key ++ [v]]> (votes nd)).
Proof.
  destruct o as [|rnd m|]; simpl.
  - unfold start_body. destruct (negb isFaulty); simpl; auto.
  - destruct (onMessage_maps tags BASE_NODE_PORT N F isFaulty rnd m nd)
      as [H|[(_ & H1 & H2)|(_ & H1 & H2)]]; [auto| |].
    + right. left. exists (msg_k m), (msg_x m). auto.
    + right. right. exists (msg_k m), (msg_x m). auto.
  - auto.
Qed.

(** ** The tallies over a run *)

(** X1.  Tallies are append-only: whatever requests a node serves, the
    proposal tally and the vote tally it held for a round are prefixes of
    the ones it holds afterwards. *)
Theorem tallies_only_grow
    (tags : Tags) (BASE_NODE_PORT : Z) (N F : nat) (initialValue : Value)
    (isFaulty : bool) (ops : list Op) (nd : Node) (r : Z) :
  let nd' := (run tags BASE_NODE_PORT N F initialValue isFaulty ops nd).1 in
  tally (proposals nd) r `prefix_of` tally (proposals nd') r
  /\ tally (votes nd) r `prefix_of` tally (votes nd') r.
Proof.
  apply (run_invariant tags BASE_NODE_PORT N F initialValue isFaulty
           (fun nd' => tally (proposals nd) r `prefix_of` tally (proposals nd') r
                       /\ tally (votes nd) r `prefix_of` tally (votes nd') r)).
  - intros o nd1 [Hp Hv].
    destruct (step_maps tags BASE_NODE_PORT N F initialValue isFaulty o nd1)
      as [[-> ->]|[(key & v & -> & ->)|(key & v & -> & ->)]].
    + auto.
    + split; [|exact Hv]. rewrite tally_grown.
      destruct (decide (key = r)); [|exact Hp].
      etrans; [exact Hp|]. apply prefix_app_r. reflexivity.
    + split; [exact Hp|]. rewrite tally_grown.
      destruct (decide (key = r)); [|exact Hv].
      etrans; [exact Hv|]. apply prefix_app_r. reflexivity.
  - split; reflexivity.
Qed.

(** X2.  A round enters a map together with its first value: in a node run
    from its initial state no round is mapped to the empty array. *)
Theorem stored_tally_nonempty
    (tags : Tags) (BASE_NODE_PORT : Z) (N F : nat) (initialValue : Value)
    (isFaulty : bool) (ops : list Op) (r : Z) (l : list Value) :
  let nd := (run tags BASE_NODE_PORT N F initialValue isFaulty ops
               (init initialValue)).1 in
  proposals nd !! r = Some l \/ votes nd !! r = Some l ->
  l <> [].
Proof.
  intros nd. revert r l. subst nd.
  apply (run_invariant tags BASE_NODE_PORT N F initialValue isFaulty
           (fun nd => forall r l,
              proposals nd !! r = Some l \/ votes nd !! r = Some l -> l <> [])).
  - intros o nd IH r l.
    assert (Hins : forall (t : gmap Z (list Value)) key v,
              <[key := tally t key ++ [v]]> t !! r = Some l ->
              t !! r = Some l \/ l = tally t key ++ [v]).
    { intros t key v H. destruct (decide (key = r)) as [->|Hne].
      - rewrite lookup_insert_eq in H. right. congruence.
      - rewrite lookup_insert_ne in H by exact Hne. left. exact H. }
    destruct (step_maps tags BASE_NODE_PORT N F initialValue isFaulty o nd)
      as [[-> ->]|[(key & v & -> & ->)|(key & v & -> & ->)]].
    + apply IH.
    + intros [H|H]; [|apply (IH r l); right; exact H].
      apply Hins in H as [H| ->]; [apply (IH r l); left; exact H|].
      intros E. apply app_eq_nil in E as [_ E]. discriminate E.
    + intros [H|H]; [apply (IH r l); left; exact H|].
      apply Hins in H as [H| ->]; [apply (IH r l); right; exact H|].
      intros E. apply app_eq_nil in E as [_ E]. discriminate E.
  - intros r l [H|H]; simpl in H; rewrite lookup_empty in H; discriminate H.
Qed.

Lemma stored_tally_nonempty_witness :
  let nd := (run tags_part_000 8000 4 1 V0 false
               [OpStart; deliver (propose_msg 1 V0)] (init V0)).1 in
  proposals nd !! 1 = Some [V0] /\ [V0] <> [].
Proof.
  intros nd. assert (H : proposals nd !! 1 = Some [V0]) by reflexivity.
  split; [exact H|].
  apply (stored_tally_nonempty tags_part_000 8000 4 1 V0 false
           [OpStart; deliver (propose_msg 1 V0)] 1 [V0]).
  left. exact H.
Defined.

(** X3.  One [/message] request touches at most one of the two maps, there
    only the round the message names, and never the killed flag. *)
Theorem message_touches_one_round
    (tags : Tags) (BASE_NODE_PORT : Z) (N F : nat) (isFaulty : bool)
    (rnd : Q) (m : Message) (nd : Node) :
  let nd' := (onMessage tags BASE_NODE_PORT N F isFaulty rnd m nd).1 in
  (proposals nd' = proposals nd \/ votes nd' = votes nd)
  /\ (forall r : Z, r <> msg_k m ->
        proposals nd' !! r = proposals nd !! r
        /\ votes nd' !! r = votes nd !! r)
  /\ killed (currentState nd') = killed (currentState nd).
Proof.
  intros nd'. subst nd'.
  split; [|split; [|apply onMessage_killed]].
  - destruct (onMessage_maps tags BASE_NODE_PORT N F isFaulty rnd m nd)
      as [[H _]|[(_ & _ & H)|(_ & H & _)]]; auto.
  - intros r Hr.
    destruct (onMessage_maps tags BASE_NODE_PORT N F isFaulty rnd m nd)
      as [[-> ->]|[(_ & -> & ->)|(_ & -> & ->)]].
    + auto.
    + split; [|reflexivity]. apply lookup_insert_ne. congruence.
    + split; [reflexivity|]. apply lookup_insert_ne. congruence.
Qed.

Lemma message_touches_one_round_witness :
  let nd := {| proposals := {[ 2 := [V1] ]}; votes := {[ 1 := [V0]; 2 := [V1] ]};
               currentState := {| killed := false; x := Some V0;
                                  decided := Some false; k := Some 1 |} |} in
  let nd' := (onMessage tags_part_000 8000 4 1 false (1 # 4)%Q
                (vote_msg 1 VQ) nd).1 in
  proposals nd' !! 2 = Some [V1] /\ votes nd' !! 2 = Some [V1].
Proof.
  intros nd nd'.
  destruct (message_touches_one_round tags_part_000 8000 4 1 false (1 # 4)%Q
              (vote_msg 1 VQ) nd) as (_ & H & _).
  destruct (H 2) as [Hp Hv]; [discriminate|].
  split; [exact Hp|exact Hv].
Defined.

(** ** The state record over a run *)

(** The value picked when a round ends without a decision is 0 or 1. *)
Lemma next_value_binary (rnd : Q) (CN CY : nat) :
  next_value rnd CN CY = V0 \/ next_value rnd CN CY = V1.
Proof.
  rewrite next_value_cases.
  destruct (decide (CY < CN)%nat); [auto|].
  destruct (decide (CN < CY)%nat); [auto|]. apply coin_binary.
Qed.

(** The state record after a [/message] request: as before, a decision for
    0 or for 1, or the next round with a value from [next_value]. *)
Lemma onMessage_state tags BASE_NODE_PORT N F isFaulty rnd m nd :
  let st := currentState nd in
  let st' := currentState
               (onMessage tags BASE_NODE_PORT N F isFaulty rnd m nd).1 in
  st' = st
  \/ st' = {| killed := killed st; x := Some V0; decided := Some true;
              k := k st |}
  \/ st' = {| killed := killed st; x := Some V1; decided := Some true;
              k := k st |}
  \/ exists CN CY : nat,
       st' = {| killed := killed st; x := Some (next_value rnd CN CY);
                decided := decided st; k := Some (js_add (msg_k m) 1) |}.
Proof.
  intros st st'. subst st st'.
  destruct (killed (currentState nd)) eqn:Hk;
    [rewrite onMessage_guarded by (left; exact Hk); auto|].
  destruct isFaulty;
    [rewrite onMessage_guarded by (right; reflexivity); auto|].
  destruct (String.eqb_spec (msg_type m) (handled_propose tags)) as [Hp|Hp].
  - rewrite onMessage_propose by assumption. auto.
  - destruct (String.eqb_spec (msg_type m) (handled_vote tags)) as [Hv|Hv].
    + rewrite onMessage_vote by assumption. rewrite Hk.
      destruct (quorum N F _); [|auto].
      destruct (Z.of_nat F + 1 <=? _); [auto|].
      destruct (Z.of_nat F + 1 <=? _); [auto|].
      right. right. right. eexists _, _. reflexivity.
    + rewrite onMessage_unhandled by assumption. auto.
Qed.

(** X4.  A node run from its initial state that has [decided = true] holds
    0 or 1 in [x]: never ["?"], also when that was its initial value, and
    never null. *)
Theorem decided_value_binary
    (tags : Tags) (BASE_NODE_PORT : Z) (N F : nat) (initialValue : Value)
    (isFaulty : bool) (ops : list Op) :
  let st := currentState
              (run tags BASE_NODE_PORT N F initialValue isFaulty ops
                 (init initialValue)).1 in
  decided st = Some true -> x st = Some V0 \/ x st = Some V1.
Proof.
  apply (run_invariant tags BASE_NODE_PORT N F initialValue isFaulty
           (fun nd => decided (currentState nd) = Some true ->
                      x (currentState nd) = Some V0
                      \/ x (currentState nd) = Some V1)).
  - intros o nd IH. destruct o as [|rnd m|]; simpl.
    + unfold start_body. destruct (negb isFaulty); simpl; discriminate.
    + destruct (onMessage_state tags BASE_NODE_PORT N F isFaulty rnd m nd)
        as [->|[->|[->|(CN & CY & ->)]]]; simpl; auto.
      intros _. destruct (next_value_binary rnd CN CY) as [-> | ->]; auto.
    + discriminate.
  - simpl. discriminate.
Qed.

(** Initial value ["?"], one node, no fault: a vote for 1 decides 1. *)
Lemma decided_value_binary_witness :
  let st := currentState
              (run tags_part_000 8000 1 0 VQ false
                 [OpStart; deliver (vote_msg 1 V1)] (init VQ)).1 in
  decided st = Some true /\ (x st = Some V0 \/ x st = Some V1).
Proof.
  intros st. assert (H : decided st = Some true) by reflexivity.
  split; [exact H|].
  exact (decided_value_binary tags_part_000 8000 1 0 VQ false
           [OpStart; deliver (vote_msg 1 V1)] H).
Defined.

(** X5.  As long as the rounds of the messages a node gets are integers,
    [k] is null in the state the node reports exactly when the node is
    faulty: the handlers of a node that is not faulty then only ever write
    integers into [k] (0, 1, or the round of a message plus one). *)
Theorem reported_round_null_iff_faulty
    (tags : Tags) (BASE_NODE_PORT : Z) (N F : nat) (initialValue : Value)
    (isFaulty : bool) (ops : list Op) :
  let nd := (run tags BASE_NODE_PORT N F initialValue isFaulty ops
               (init initialValue)).1 in
  k (getState isFaulty nd) = None <-> isFaulty = true.
Proof.
  intros nd. destruct isFaulty; [split; reflexivity|].
  split; [|discriminate]. unfold getState. subst nd.
  apply (run_invariant tags BASE_NODE_PORT N F initialValue false
           (fun nd => k (currentState nd) = None -> false = true)).
  - intros o nd IH. destruct o as [|rnd m|]; simpl.
    + discriminate.
    + destruct (onMessage_state tags BASE_NODE_PORT N F false rnd m nd)
        as [->|[->|[->|(CN & CY & ->)]]]; simpl; auto.
      discriminate.
    + discriminate.
  - simpl. discriminate.
Qed.

(** ** What a node sends *)

(** X6.  A faulty node never sends a message, whatever it is asked. *)
Theorem faulty_never_sends
    (tags : Tags) (BASE_NODE_PORT : Z) (N F : nat) (initialValue : Value)
    (ops : list Op) (nd : Node) :
  (run tags BASE_NODE_PORT N F initialValue true ops nd).2 = [].
Proof.
  revert nd. induction ops as [|o ops IH]; intros nd; [reflexivity|].
  rewrite run_cons. cbv zeta. rewrite IH, app_nil_r.
  destruct o as [|rnd m|]; simpl; [reflexivity| |reflexivity].
  rewrite onMessage_guarded by (right; reflexivity). reflexivity.
Qed.

(** A broadcast goes to the ports of the nodes [0 .. N - 1]. *)
Lemma broadcast_ports (BASE_NODE_PORT : Z) (N : nat) (m : Message) :
  Forall (fun f : Fetch =>
            (exists i : nat, (i < N)%nat
                             /\ port f = listen_port BASE_NODE_PORT i)
            /\ body f = m)
         (broadcast BASE_NODE_PORT N m).
Proof.
  unfold broadcast. apply Forall_forall. intros f Hin.
  apply list_elem_of_fmap in Hin as (i & -> & Hi). apply elem_of_seq in Hi.
  split; [|reflexivity]. exists i. split; [lia|reflexivity].
Qed.

(** What a [/message] request sends: nothing, or one broadcast tagged as a
    vote or as a proposal. *)
Lemma onMessage_sends tags BASE_NODE_PORT N F isFaulty rnd m nd :
  let out := (onMessage tags BASE_NODE_PORT N F isFaulty rnd m nd).2 in
  out = []
  \/ exists m' : Message,
       out = broadcast BASE_NODE_PORT N m'
       /\ (msg_type m' = sent_propose tags \/ msg_type m' = sent_vote tags).
Proof.
  intros out. subst out.
  destruct (killed (currentState nd)) eqn:Hk;
    [rewrite onMessage_guarded by (left; exact Hk); auto|].
  destruct isFaulty;
    [rewrite onMessage_guarded by (right; reflexivity); auto|].
  destruct (String.eqb_spec (msg_type m) (handled_propose tags)) as [Hp|Hp].
  - rewrite onMessage_propose by assumption. simpl.
    destruct (quorum N F _); [|auto].
    right. eexists. split; [reflexivity|]. right. reflexivity.
  - destruct (String.eqb_spec (msg_type m) (handled_vote tags)) as [Hv|Hv].
    + rewrite onMessage_vote by assumption.
      destruct (quorum N F _); [|auto].
      destruct (Z.of_nat F + 1 <=? _); [auto|].
      destruct (Z.of_nat F + 1 <=? _); [auto|].
      right. eexists. split; [reflexivity|]. left. reflexivity.
    + rewrite onMessage_unhandled by assumption. auto.
Qed.

(** X7.  Every message a node ever sends goes to a port one of the nodes
    [0 .. N - 1] listens on and is tagged with one of the two sent tags. *)
Theorem fetches_well_addressed
    (tags : Tags) (BASE_NODE_PORT : Z) (N F : nat) (initialValue : Value)
    (isFaulty : bool) (ops : list Op) (nd : Node) :
  Forall (fun f : Fetch =>
            (exists i : nat, (i < N)%nat
                             /\ port f = listen_port BASE_NODE_PORT i)
            /\ (msg_type (body f) = sent_propose tags
                \/ msg_type (body f) = sent_vote tags))
         (run tags BASE_NODE_PORT N F initialValue isFaulty ops nd).2.
Proof.
  apply run_output. intros o nd1.
  assert (Hb : forall m' : Message,
            msg_type m' = sent_propose tags \/ msg_type m' = sent_vote tags ->
            Forall (fun f : Fetch =>
                      (exists i : nat, (i < N)%nat
                                       /\ port f = listen_port BASE_NODE_PORT i)
                      /\ (msg_type (body f) = sent_propose tags
                          \/ msg_type (body f) = sent_vote tags))
                   (broadcast BASE_NODE_PORT N m')).
  { intros m' Hm'. eapply Forall_impl; [apply broadcast_ports|].
    intros f [Hi ->]. split; [exact Hi|exact Hm']. }
  destruct o as [|rnd m|]; simpl.
  - unfold start_body. destruct (negb isFaulty); simpl; [|constructor].
    apply Hb. left. reflexivity.
  - destruct (onMessage_sends tags BASE_NODE_PORT N F isFaulty rnd m nd1)
      as [->|(m' & -> & Hm')]; [constructor|apply Hb, Hm'].
  - constructor.
Qed.

(** ** The same message again and again *)

Lemma repeated_S (rnd : Q) (m : Message) (n : nat) :
  repeated rnd m (S n) = OpMessage rnd m :: repeated rnd m n.
Proof. reflexivity. Qed.

Lemma repeated_snoc (rnd : Q) (m : Message) (n : nat) :
  repeated rnd m (S n) = repeated rnd m n ++ [OpMessage rnd m].
Proof.
  unfold repeated, deliveries.
  change (repeat (rnd, m) (S n)) with ((rnd, m) :: repeat (rnd, m) n).
  rewrite repeat_cons, map_app. reflexivity.
Qed.

Lemma count0_repeat (v : Value) (n : nat) :
  count0 (repeat v n) = if eq0 v then n else 0%nat.
Proof.
  unfold count0. induction n as [|n IH]; simpl.
  - destruct (eq0 v); reflexivity.
  - destruct (eq0 v); simpl; rewrite IH; reflexivity.
Qed.

Lemma count1_repeat (v : Value) (n : nat) :
  count1 (repeat v n) = if eq1 v then n else 0%nat.
Proof.
  unfold count1. induction n as [|n IH]; simpl.
  - destruct (eq1 v); reflexivity.
  - destruct (eq1 v); simpl; rewrite IH; reflexivity.
Qed.

(** X8.  Nothing marks a round as having fired: when the same proposal is
    delivered [n] times to a node that is neither faulty nor killed and
    holds [t] proposals of that round, the node sends [N] votes for every
    tally size from [t + 1] to [t + n] that is at or above [N - F]; the
    tally ends as the old one followed by [n] copies of the value, and the
    state record is as before. *)
Theorem repeated_proposals_fetch_count
    (tags : Tags) (BASE_NODE_PORT : Z) (N F : nat) (initialValue : Value)
    (rnd : Q) (m : Message) (n : nat) (nd : Node) :
  killed (currentState nd) = false ->
  msg_type m = handled_propose tags ->
  let t := length (tally (proposals nd) (msg_k m)) in
  let r := run tags BASE_NODE_PORT N F initialValue false
             (repeated rnd m n) nd in
  length r.2
  = (N * (sizes_at_quorum N F (t + n) - sizes_at_quorum N F t))%nat
  /\ tally (proposals r.1) (msg_k m)
     = tally (proposals nd) (msg_k m) ++ repeat (msg_x m) n
  /\ currentState r.1 = currentState nd.
Proof.
  intros Hk Hp. revert nd Hk. induction n as [|n IH]; intros nd Hk t r.
  - subst r. simpl. rewrite app_nil_r.
    replace (t + 0)%nat with t by lia. rewrite Nat.sub_diag, Nat.mul_0_r. auto.
  - subst r. rewrite repeated_S, run_cons. cbv zeta. simpl step.
    rewrite onMessage_propose by assumption. cbn [fst snd].
    fold (tally (proposals nd) (msg_k m)).
    set (nd1 := {| proposals := _; votes := votes nd;
                   currentState := currentState nd |}).
    assert (Ht1 : tally (proposals nd1) (msg_k m)
                  = tally (proposals nd) (msg_k m) ++ [msg_x m]).
    { unfold nd1. simpl. rewrite tally_grown, decide_True by reflexivity.
      reflexivity. }
    destruct (IH nd1 Hk) as (Hlen & Htally & Hst).
    rewrite Ht1 in Hlen, Htally.
    split; [|split].
    + rewrite length_app, Hlen, length_app. simpl length. fold t.
      assert (Hout : length (if quorum N F (tally (proposals nd) (msg_k m)
                                             ++ [msg_x m])
                             then broadcast BASE_NODE_PORT N
                                    {| msg_k := msg_k m;
                                       msg_x := vote_value N
                                                  (tally (proposals nd) (msg_k m)
                                                   ++ [msg_x m]);
                                       msg_type := sent_vote tags |}
                             else [])
                     = (N * (sizes_at_quorum N F (t + 1)
                             - sizes_at_quorum N F t))%nat).
      { destruct (quorum N F _) eqn:Hq.
        - apply quorum_true in Hq. rewrite length_app in Hq. simpl in Hq.
          fold t in Hq. rewrite length_broadcast.
          replace (sizes_at_quorum N F (t + 1) - sizes_at_quorum N F t)%nat
            with 1%nat by (unfold sizes_at_quorum; lia).
          lia.
        - apply quorum_false in Hq. rewrite length_app in Hq. simpl in Hq.
          fold t in Hq.
          replace (sizes_at_quorum N F (t + 1) - sizes_at_quorum N F t)%nat
            with 0%nat by (unfold sizes_at_quorum; lia).
          simpl. lia. }
      rewrite Hout, <- Nat.mul_add_distr_l. f_equal.
      unfold sizes_at_quorum. lia.
    + rewrite Htally, <- app_assoc. reflexivity.
    + exact Hst.
Qed.

(** Four nodes, one fault, a fresh round: of five identical proposals the
    third, fourth and fifth each set off four votes. *)
Lemma repeated_proposals_fetch_count_witness :
  let nd := (start_body tags_part_000 8000 4 V0 false (init V0)).1 in
  length (run tags_part_000 8000 4 1 V0 false
            (repeated (1 # 4)%Q (propose_msg 1 V0) 5) nd).2 = 12%nat.
Proof.
  intros nd.
  destruct (repeated_proposals_fetch_count tags_part_000 8000 4 1 V0
              (1 # 4)%Q (propose_msg 1 V0) 5 nd) as (H & _ & _).
  - reflexivity.
  - reflexivity.
  - exact H.
Defined.

(** The vote branch stores the value whatever it goes on to do. *)
Lemma onMessage_vote_tally tags BASE_NODE_PORT N F rnd m nd :
  killed (currentState nd) = false ->
  msg_type m <> handled_propose tags ->
  msg_type m = handled_vote tags ->
  votes (onMessage tags BASE_NODE_PORT N F false rnd m nd).1
  = <[msg_k m := tally (votes nd) (msg_k m) ++ [msg_x m]]> (votes nd).
Proof.
  intros Hk Hp Hv. rewrite onMessage_vote by assumption.
  destruct (quorum N F _); [|reflexivity].
  destruct (Z.of_nat F + 1 <=? _); [reflexivity|].
  destruct (Z.of_nat F + 1 <=? _); reflexivity.
Qed.

Lemma repeated_votes_tally tags BASE_NODE_PORT N F initialValue rnd m n nd :
  killed (currentState nd) = false ->
  msg_type m <> handled_propose tags ->
  msg_type m = handled_vote tags ->
  let r := run tags BASE_NODE_PORT N F initialValue false
             (repeated rnd m n) nd in
  tally (votes r.1) (msg_k m) = tally (votes nd) (msg_k m) ++ repeat (msg_x m) n
  /\ killed (currentState r.1) = false.
Proof.
  intros Hk Hp Hv. revert nd Hk. induction n as [|n IH]; intros nd Hk r.
  - subst r. simpl. rewrite app_nil_r. auto.
  - subst r. rewrite repeated_S, run_cons. cbv zeta. simpl step. cbn [fst snd].
    set (nd1 := (onMessage tags BASE_NODE_PORT N F false rnd m nd).1).
    assert (Hk1 : killed (currentState nd1) = false)
      by (unfold nd1; rewrite onMessage_killed; exact Hk).
    destruct (IH nd1 Hk1) as [Ht Hkr]. split; [|exact Hkr].
    rewrite Ht. unfold nd1. rewrite onMessage_vote_tally by assumption.
    rewrite tally_grown, decide_True by reflexivity.
    rewrite <- app_assoc. reflexivity.
Qed.

(** X9.  Votes are counted without regard to who sent them: the same vote
    for 0 or for 1, delivered [n] times for a round the node holds no vote
    of, makes a node that is neither faulty nor killed decide that value as
    soon as [n] is at least [N - F] and at least [F + 1]. *)
Theorem repeated_votes_decide
    (tags : Tags) (BASE_NODE_PORT : Z) (N F : nat) (initialValue : Value)
    (rnd : Q) (m : Message) (n : nat) (nd : Node) :
  handled_propose tags <> handled_vote tags ->
  killed (currentState nd) = false ->
  msg_type m = handled_vote tags ->
  msg_x m = V0 \/ msg_x m = V1 ->
  votes nd !! msg_k m = None ->
  Z.of_nat N - Z.of_nat F <= Z.of_nat n ->
  (F + 1 <= n)%nat ->
  let st' := currentState
               (run tags BASE_NODE_PORT N F initialValue false
                  (repeated rnd m n) nd).1 in
  x st' = Some (msg_x m) /\ decided st' = Some true.
Proof.
  intros Hdist Hk Hv Hx Hfresh Hq Hn st'.
  assert (Hp : msg_type m <> handled_propose tags) by congruence.
  destruct n as [|n]; [lia|]. subst st'.
  rewrite repeated_snoc, run_app. cbv zeta. cbn [fst snd].
  destruct (repeated_votes_tally tags BASE_NODE_PORT N F initialValue rnd m n nd
              Hk Hp Hv) as [Ht Hk1].
  set (nd1 := (run tags BASE_NODE_PORT N F initialValue false
                 (repeated rnd m n) nd).1) in *.
  unfold tally at 2 in Ht. rewrite Hfresh in Ht. simpl in Ht.
  rewrite run_cons. cbv zeta. simpl.
  rewrite onMessage_vote by assumption.
  fold (tally (votes nd1) (msg_k m)). rewrite Ht.
  assert (Hrep : repeat (msg_x m) n ++ [msg_x m] = repeat (msg_x m) (S n))
    by (symmetry; apply repeat_cons).
  rewrite Hrep.
  replace (quorum N F (repeat (msg_x m) (S n))) with true
    by (symmetry; apply quorum_true; rewrite repeat_length; exact Hq).
  rewrite count0_repeat, count1_repeat.
  destruct Hx as [-> | ->]; simpl eq0; simpl eq1; cbv iota.
  - replace (Z.of_nat F + 1 <=? Z.of_nat (S n)) with true
      by (symmetry; apply Z.leb_le; lia).
    simpl. auto.
  - replace (Z.of_nat F + 1 <=? Z.of_nat 0) with false
      by (symmetry; apply Z.leb_gt; lia).
    replace (Z.of_nat F + 1 <=? Z.of_nat (S n)) with true
      by (symmetry; apply Z.leb_le; lia).
    simpl. auto.
Qed.

(** Four nodes, one fault: three copies of one vote for 1 decide 1. *)
Lemma repeated_votes_decide_witness :
  let nd := (start_body tags_part_000 8000 4 V0 false (init V0)).1 in
  let st' := currentState
               (run tags_part_000 8000 4 1 V0 false
                  (repeated (1 # 4)%Q (vote_msg 1 V1) 3) nd).1 in
  x st' = Some V1 /\ decided st' = Some true.
Proof.
  intros nd.
  apply (repeated_votes_decide tags_part_000 8000 4 1 V0 (1 # 4)%Q
           (vote_msg 1 V1) 3 nd).
  - discriminate.
  - reflexivity.
  - reflexivity.
  - right. reflexivity.
  - reflexivity.
  - lia.
  - lia.
Defined.

(** ** The wait of [/start] *)

Lemma await_ready_None (ready : nat -> bool) (i fuel : nat) :
  await_ready ready i fuel = None
  <-> forall j : nat, (i <= j < i + fuel)%nat -> ready j = false.
Proof.
  revert i. induction fuel as [|fuel IH]; intros i; simpl.
  - split; [intros _ j Hj; lia|reflexivity].
  - destruct (ready i) eqn:Hi.
    + split; [discriminate|]. intros H. rewrite (H i) in Hi by lia.
      discriminate Hi.
    + rewrite IH. split; intros H j Hj.
      * destruct (decide (j = i)) as [->|Hne]; [exact Hi|]. apply H. lia.
      * apply H. lia.
Qed.

Lemma await_ready_Some (ready : nat -> bool) (i fuel n : nat) :
  await_ready ready i fuel = Some n ->
  ready n = true
  /\ (i <= n < i + fuel)%nat
  /\ forall j : nat, (i <= j < n)%nat -> ready j = false.
Proof.
  revert i. induction fuel as [|fuel IH]; intros i; simpl; [discriminate|].
  destruct (ready i) eqn:Hi.
  - intros [= <-]. split; [exact Hi|]. split; [lia|]. intros j Hj. lia.
  - intros H. apply IH in H as (Hn & Hr & Hf).
    split; [exact Hn|]. split; [lia|].
    intros j Hj. destruct (decide (j = i)) as [->|Hne]; [exact Hi|].
    apply Hf. lia.
Qed.

(** X10.  [/start] gets past its wait exactly when one of the polls finds
    the nodes ready, and then goes on after the first such poll: with
    [fuel] polls allowed it comes to nothing if and only if none of them
    answers true, and otherwise runs its body once, on the state it finds
    at that moment. *)
Theorem start_waits_for_readiness
    (tags : Tags) (BASE_NODE_PORT : Z) (N : nat) (initialValue : Value)
    (isFaulty : bool) (ready : nat -> bool) (fuel : nat) (nd : Node) :
  (start tags BASE_NODE_PORT N initialValue isFaulty ready fuel nd = None
   <-> forall j : nat, (j < fuel)%nat -> ready j = false)
  /\ (start tags BASE_NODE_PORT N initialValue isFaulty ready fuel nd
      = Some (start_body tags BASE_NODE_PORT N initialValue isFaulty nd)
      <-> exists j : nat, (j < fuel)%nat /\ ready j = true)
  /\ (forall n : nat, await_ready ready 0 fuel = Some n ->
      ready n = true /\ forall j : nat, (j < n)%nat -> ready j = false).
Proof.
  unfold start. split; [|split].
  - destruct (await_ready ready 0 fuel) as [n|] eqn:E.
    + split; [discriminate|]. intros H.
      apply await_ready_Some in E as (Hn & Hr & _).
      rewrite H in Hn by lia. discriminate Hn.
    + split; [|reflexivity]. intros _ j Hj.
      apply (proj1 (await_ready_None ready 0 fuel) E). lia.
  - destruct (await_ready ready 0 fuel) as [n|] eqn:E.
    + split; [|reflexivity]. intros _.
      apply await_ready_Some in E as (Hn & Hr & _).
      exists n. split; [lia|exact Hn].
    + split; [discriminate|]. intros (j & Hj & Hr).
      rewrite (proj1 (await_ready_None ready 0 fuel) E j) in Hr by lia.
      discriminate Hr.
  - intros n E. apply await_ready_Some in E as (Hn & _ & Hf).
    split; [exact Hn|]. intros j Hj. apply Hf. lia.
Qed.

(** The nodes are ready at the third poll: two delays, then the body. *)
Lemma start_waits_for_readiness_witness :
  let ready := fun i : nat => (2 <=? i)%nat in
  await_ready ready 0 10 = Some 2%nat
  /\ ready 2%nat = true
  /\ ready 1%nat = false.
Proof.
  intros ready.
  assert (E : await_ready ready 0 10 = Some 2%nat) by reflexivity.
  destruct (start_waits_for_readiness tags_part_000 8000 4 V0 false ready 10
              (init V0)) as (_ & _ & H).
  destruct (H 2%nat E) as [Hn Hf].
  split; [exact E|]. split; [exact Hn|]. apply Hf. lia.
Defined.

(** ** Who a broadcast reaches *)

Lemma broadcast_S (BASE_NODE_PORT : Z) (N : nat) (m : Message) :
  broadcast BASE_NODE_PORT (S N) m
  = broadcast BASE_NODE_PORT N m
    ++ [ {| port := BASE_NODE_PORT + Z.of_nat N; body := m |} ].
Proof. unfold broadcast. rewrite seq_S, map_app. reflexivity. Qed.

(** X11.  A broadcast reaches every node once, the sender included: exactly
    one of its fetches goes to the port a node with an index below [N]
    listens on, it carries the message, and none goes to the port of a node
    with a higher index. *)
Theorem broadcast_reaches_each_node_once
    (BASE_NODE_PORT : Z) (N : nat) (m : Message) (nodeId : nat) :
  fetches_to BASE_NODE_PORT nodeId (broadcast BASE_NODE_PORT N m)
  = if decide (nodeId < N)%nat
    then [ {| port := listen_port BASE_NODE_PORT nodeId; body := m |} ]
    else [].
Proof.
  unfold fetches_to. induction N as [|N IH].
  - rewrite decide_False by lia. reflexivity.
  - rewrite broadcast_S, List.filter_app, IH. simpl. unfold listen_port.
    destruct (decide (nodeId = N)) as [->|Hne].
    + rewrite Z.eqb_refl, decide_False, decide_True by lia. reflexivity.
    + replace (BASE_NODE_PORT + Z.of_nat N =? BASE_NODE_PORT + Z.of_nat nodeId)
        with false by (symmetry; apply Z.eqb_neq; lia).
      rewrite app_nil_r.
      destruct (decide (nodeId < N)%nat);
        [rewrite decide_True by lia|rewrite decide_False by lia]; reflexivity.
Qed.

(** ** Majorities *)

(** X12.  While a tally holds no more than [N] values, the vote derived
    from it is 0 exactly when more than half of [N] entries are 0, 1 exactly
    when more than half of [N] are 1, and ["?"] exactly when neither holds:
    the two majorities exclude each other, so the order of the two tests
    plays no part. *)
Theorem vote_value_majority (N : nat) (l : list Value) :
  (length l <= N)%nat ->
  (vote_value N l = V0 <-> (N < 2 * count0 l)%nat)
  /\ (vote_value N l = V1 <-> (N < 2 * count1 l)%nat)
  /\ (vote_value N l = VQ
      <-> (2 * count0 l <= N)%nat /\ (2 * count1 l <= N)%nat).
Proof.
  intros Hlen. pose proof (counts_le_length l) as Hc. unfold vote_value.
  destruct (gt_half N (count0 l)) eqn:H0.
  - apply gt_half_true in H0.
    split; [tauto|]. split; (split; [discriminate|lia]).
  - apply gt_half_false in H0.
    destruct (gt_half N (count1 l)) eqn:H1.
    + apply gt_half_true in H1.
      split; [split; [discriminate|lia]|].
      split; [tauto|]. split; [discriminate|lia].
    + apply gt_half_false in H1.
      split; [split; [discriminate|lia]|].
      split; [split; [discriminate|lia]|]. tauto.
Qed.

Lemma vote_value_majority_witness :
  vote_value 4 [V1; V0; V1; V1] = V1.
Proof.
  destruct (vote_value_majority 4 [V1; V0; V1; V1]) as (_ & H & _).
  - simpl. lia.
  - apply H. vm_compute. lia.
Defined.

(** ** A decision for 0 within its round *)

(** One more vote of round [r] on a tally that already has the quorum and
    [F + 1] zeros. *)
Lemma vote_on_zero_majority tags BASE_NODE_PORT N F rnd m nd :
  handled_propose tags <> handled_vote tags ->
  killed (currentState nd) = false ->
  msg_type m = handled_vote tags ->
  (F + 1 <= count0 (tally (votes nd) (msg_k m)))%nat ->
  Z.of_nat N - Z.of_nat F <= Z.of_nat (length (tally (votes nd) (msg_k m))) ->
  let r := onMessage tags BASE_NODE_PORT N F false rnd m nd in
  r.2 = []
  /\ x (currentState r.1) = Some V0
  /\ decided (currentState r.1) = Some true
  /\ killed (currentState r.1) = false
  /\ tally (votes r.1) (msg_k m) = tally (votes nd) (msg_k m) ++ [msg_x m].
Proof.
  intros Hdist Hk Hv Hc Hq r. subst r.
  assert (Hp : msg_type m <> handled_propose tags) by congruence.
  rewrite onMessage_vote by assumption.
  fold (tally (votes nd) (msg_k m)).
  replace (quorum N F (tally (votes nd) (msg_k m) ++ [msg_x m])) with true
    by (symmetry; apply quorum_true; rewrite length_app; simpl; lia).
  replace (Z.of_nat F + 1
           <=? Z.of_nat (count0 (tally (votes nd) (msg_k m) ++ [msg_x m])))
    with true by (symmetry; apply Z.leb_le; rewrite count0_snoc; lia).
  simpl. repeat split; [exact Hk|].
  rewrite tally_grown, decide_True by reflexivity. reflexivity.
Qed.

(** X13.  The zeros are looked at first and votes are never taken back, so
    a decision for 0 holds within its round: once the vote tally of a round
    has [N - F] entries and [F + 1] zeros, any further votes of that round,
    whatever their values, leave the node decided on 0 and make it send
    nothing. *)
Theorem zero_decision_sticks
    (tags : Tags) (BASE_NODE_PORT : Z) (N F : nat) (initialValue : Value)
    (r : Z) (ms : list (Q * Message)) (nd : Node) :
  handled_propose tags <> handled_vote tags ->
  killed (currentState nd) = false ->
  (F + 1 <= count0 (tally (votes nd) r))%nat ->
  Z.of_nat N - Z.of_nat F <= Z.of_nat (length (tally (votes nd) r)) ->
  Forall (fun rm : Q * Message =>
            msg_type rm.2 = handled_vote tags /\ msg_k rm.2 = r) ms ->
  ms <> [] ->
  let res := run tags BASE_NODE_PORT N F initialValue false
               (deliveries ms) nd in
  res.2 = []
  /\ x (currentState res.1) = Some V0
  /\ decided (currentState res.1) = Some true.
Proof.
  intros Hdist Hk Hc Hq Hms Hne.
  destruct ms as [|[rnd0 m0] ms]; [contradiction|]. clear Hne.
  apply Forall_cons in Hms as [[Hv0 Hr0] Hms]. simpl in Hv0, Hr0. subst r.
  change (deliveries ((rnd0, m0) :: ms))
    with (OpMessage rnd0 m0 :: deliveries ms).
  intros res. subst res. rewrite run_cons. cbv zeta. simpl step.
  destruct (vote_on_zero_majority tags BASE_NODE_PORT N F rnd0 m0 nd
              Hdist Hk Hv0 Hc Hq) as (Ho & Hx & Hd & Hk1 & Ht).
  set (nd1 := (onMessage tags BASE_NODE_PORT N F false rnd0 m0 nd).1) in *.
  rewrite Ho. simpl app.
  assert (Hc1 : (F + 1 <= count0 (tally (votes nd1) (msg_k m0)))%nat)
    by (rewrite Ht, count0_snoc; lia).
  assert (Hq1 : Z.of_nat N - Z.of_nat F
                <= Z.of_nat (length (tally (votes nd1) (msg_k m0))))
    by (rewrite Ht, length_app; simpl; lia).
  clearbody nd1. clear Ho Ht Hk Hc Hq nd.
  revert nd1 Hx Hd Hk1 Hc1 Hq1.
  induction ms as [|[rnd1 m1] ms IH]; intros nd Hx Hd Hk Hc Hq.
  - simpl. auto.
  - apply Forall_cons in Hms as [[Hv1 Hr1] Hms]. simpl in Hv1, Hr1.
    change (deliveries ((rnd1, m1) :: ms))
      with (OpMessage rnd1 m1 :: deliveries ms).
    rewrite run_cons. cbv zeta. simpl step. rewrite <- Hr1 in Hc, Hq.
    destruct (vote_on_zero_majority tags BASE_NODE_PORT N F rnd1 m1 nd
                Hdist Hk Hv1 Hc Hq) as (Ho' & Hx' & Hd' & Hk' & Ht').
    cbn [fst snd]. rewrite Ho'. simpl app.
    apply (IH Hms); [exact Hx'|exact Hd'|exact Hk'| |].
    + rewrite <- Hr1, Ht', count0_snoc. lia.
    + rewrite <- Hr1, Ht', length_app. simpl. lia.
Qed.

(** Four nodes, one fault: round 1 stands at 0, 0, 1; two more votes for 1
    give the ones the larger count, and the node stays decided on 0. *)
Lemma zero_decision_sticks_witness :
  let nd := {| proposals := ∅; votes := {[ 1 := [V0; V0; V1] ]};
               currentState := {| killed := false; x := Some V0;
                                  decided := Some true; k := Some 1 |} |} in
  let res := run tags_part_000 8000 4 1 V0 false
               (deliveries [((1 # 4)%Q, vote_msg 1 V1);
                            ((3 # 4)%Q, vote_msg 1 V1)]) nd in
  res.2 = [] /\ x (currentState res.1) = Some V0
  /\ decided (currentState res.1) = Some true.
Proof.
  intros nd.
  apply (zero_decision_sticks tags_part_000 8000 4 1 V0 1
           [((1 # 4)%Q, vote_msg 1 V1); ((3 # 4)%Q, vote_msg 1 V1)] nd).
  - discriminate.
  - reflexivity.
  - vm_compute. lia.
  - vm_compute. discriminate.
  - repeat constructor.
  - discriminate.
Defined.

(** ** Nodes that do not take what they send *)

(** X14.  When neither of the two tags a node writes is one of the two it
    compares with, as in [node.ts], nodes of that kind make no progress
    among themselves: a node run from its initial state on [/start],
    [/stop] and messages carrying the sent tags keeps both maps empty, never
    has [decided = true], and sends nothing but the round-1 proposals of
    [/start]. *)
Theorem unhandled_tags_no_progress
    (tags : Tags) (BASE_NODE_PORT : Z) (N F : nat) (initialValue : Value)
    (isFaulty : bool) (ops : list Op) :
  sent_propose tags <> handled_propose tags ->
  sent_propose tags <> handled_vote tags ->
  sent_vote tags <> handled_propose tags ->
  sent_vote tags <> handled_vote tags ->
  Forall (sent_by tags) ops ->
  let r := run tags BASE_NODE_PORT N F initialValue isFaulty ops
             (init initialValue) in
  proposals r.1 = ∅
  /\ votes r.1 = ∅
  /\ decided (currentState r.1) <> Some true
  /\ Forall (fun f : Fetch =>
               body f = {| msg_k := 1; msg_x := initialValue;
                           msg_type := sent_propose tags |}) r.2.
Proof.
  intros Hpp Hpv Hvp Hvv Hops.
  assert (Hgen : forall nd : Node,
            proposals nd = ∅ -> votes nd = ∅ ->
            decided (currentState nd) <> Some true ->
            let r := run tags BASE_NODE_PORT N F initialValue isFaulty ops nd in
            proposals r.1 = ∅ /\ votes r.1 = ∅
            /\ decided (currentState r.1) <> Some true
            /\ Forall (fun f : Fetch =>
                         body f = {| msg_k := 1; msg_x := initialValue;
                                     msg_type := sent_propose tags |}) r.2).
  { induction ops as [|o ops IH]; intros nd Hp Hv Hd.
    - simpl. repeat split; [exact Hp|exact Hv|exact Hd|constructor].
    - apply Forall_cons in Hops as [Ho Hops]. specialize (IH Hops).
      rewrite run_cons. cbv zeta. cbn [fst snd].
      destruct o as [|rnd m|]; simpl step.
      + unfold start_body. destruct (negb isFaulty); cbn [fst snd].
        * destruct (IH {| proposals := proposals nd; votes := votes nd;
                          currentState :=
                            {| killed := killed (currentState nd);
                               x := Some initialValue; decided := Some false;
                               k := Some 1 |} |})
            as (H1 & H2 & H3 & H4); [exact Hp|exact Hv|discriminate|].
          repeat split; [exact H1|exact H2|exact H3|].
          apply Forall_app. split; [|exact H4].
          eapply Forall_impl; [apply broadcast_ports|].
          intros f [_ Hb]. exact Hb.
        * destruct (IH {| proposals := proposals nd; votes := votes nd;
                          currentState :=
                            {| killed := killed (currentState nd);
                               x := None; decided := None; k := None |} |})
            as (H1 & H2 & H3 & H4); [exact Hp|exact Hv|discriminate|].
          repeat split; [exact H1|exact H2|exact H3|exact H4].
      + simpl in Ho.
        rewrite onMessage_unhandled
          by (destruct Ho as [-> | ->]; assumption).
        cbn [fst snd]. apply IH; assumption.
      + cbn [fst snd]. destruct (IH (stop nd)) as (H1 & H2 & H3 & H4);
          [exact Hp|exact Hv|discriminate|].
        repeat split; [exact H1|exact H2|exact H3|exact H4]. }
  apply Hgen; [reflexivity|reflexivity|discriminate].
Qed.

(** [node.ts], four nodes: the node is started and gets back its own
    proposal and a vote as such nodes tag them. *)
Lemma unhandled_tags_no_progress_witness :
  let r := run tags_node_ts 8000 4 1 V0 false
             [OpStart;
              OpMessage (1 # 4)%Q {| msg_k := 1; msg_x := V0; msg_type := "2P" |};
              OpMessage (1 # 4)%Q {| msg_k := 1; msg_x := V0; msg_type := "2V" |}]
             (init V0) in
  proposals r.1 = ∅ /\ votes r.1 = ∅
  /\ decided (currentState r.1) <> Some true.
Proof.
  intros r.
  destruct (unhandled_tags_no_progress tags_node_ts 8000 4 1 V0 false
              [OpStart;
               OpMessage (1 # 4)%Q {| msg_k := 1; msg_x := V0; msg_type := "2P" |};
               OpMessage (1 # 4)%Q {| msg_k := 1; msg_x := V0; msg_type := "2V" |}])
    as (H1 & H2 & H3 & _).
  - discriminate.
  - discriminate.
  - discriminate.
  - discriminate.
  - constructor; [exact I|]. constructor; [left; reflexivity|].
    constructor; [right; reflexivity|]. constructor.
  - split; [exact H1|]. split; [exact H2|exact H3].
Defined.

(** ** Start after stop *)

(** X15.  [/start] does not bring a stopped node back: on a node that is
    not faulty, [/stop] followed by [/start] leaves [killed] at true with
    [k = 1], [x] the initial value and [decided = false]; the [N] round-1
    proposals are sent all the same, and messages that come in afterwards
    are still dropped. *)
Theorem start_after_stop
    (tags : Tags) (BASE_NODE_PORT : Z) (N F : nat) (initialValue : Value)
    (rnd : Q) (m : Message) (nd : Node) :
  let r := run tags BASE_NODE_PORT N F initialValue false
             [OpStop; OpStart] nd in
  getState false r.1 = {| killed := true; x := Some initialValue;
                          decided := Some false; k := Some 1 |}
  /\ r.2 = broadcast BASE_NODE_PORT N
             {| msg_k := 1; msg_x := initialValue;
                msg_type := sent_propose tags |}
  /\ length r.2 = N
  /\ onMessage tags BASE_NODE_PORT N F false rnd m r.1 = (r.1, []).
Proof.
  simpl. rewrite app_nil_r.
  split; [reflexivity|]. split; [reflexivity|].
  split; [apply length_broadcast|].
  apply onMessage_guarded. left. reflexivity.
Qed.

(** ** The end of a round without a decision *)

(** X16.  When a vote brings the tally of its round to [N - F] entries or
    more and neither value has [F + 1] votes, the node, neither faulty nor
    killed, sends [N] proposals that carry exactly the [k] and the [x] it
    has just written: the round of the vote plus one as JS numbers add (the
    next integer while that is at most 2^53 in magnitude) and a value that
    is 0 or 1; [decided] is left as it was. *)
Theorem advance_broadcast_matches_state
    (tags : Tags) (BASE_NODE_PORT : Z) (N F : nat) (rnd : Q)
    (m : Message) (nd : Node) :
  handled_propose tags <> handled_vote tags ->
  killed (currentState nd) = false ->
  msg_type m = handled_vote tags ->
  let vote := tally (votes nd) (msg_k m) ++ [msg_x m] in
  let r := onMessage tags BASE_NODE_PORT N F false rnd m nd in
  let st' := currentState r.1 in
  Z.of_nat N - Z.of_nat F <= Z.of_nat (length vote) ->
  (count0 vote < F + 1)%nat ->
  (count1 vote < F + 1)%nat ->
  length r.2 = N
  /\ decided st' = decided (currentState nd)
  /\ k st' = Some (js_add (msg_k m) 1)
  /\ (Z.abs (msg_k m + 1) <= 2 ^ 53 -> k st' = Some (msg_k m + 1))
  /\ (x st' = Some V0 \/ x st' = Some V1)
  /\ Forall (fun f : Fetch =>
               msg_type (body f) = sent_propose tags
               /\ Some (msg_k (body f)) = k st'
               /\ Some (msg_x (body f)) = x st') r.2.
Proof.
  intros Hdist Hk Hv vote r st' Hq H0 H1. subst st' r.
  assert (Hp : msg_type m <> handled_propose tags) by congruence.
  rewrite onMessage_vote by assumption.
  fold (tally (votes nd) (msg_k m)). fold vote.
  apply quorum_true in Hq. rewrite Hq.
  replace (Z.of_nat F + 1 <=? Z.of_nat (count0 vote)) with false
    by (symmetry; apply Z.leb_gt; lia).
  replace (Z.of_nat F + 1 <=? Z.of_nat (count1 vote)) with false
    by (symmetry; apply Z.leb_gt; lia).
  cbn [fst snd currentState decided k x].
  split; [apply length_broadcast|]. split; [reflexivity|].
  split; [reflexivity|].
  split; [intros Hr; rewrite js_add_exact by exact Hr; reflexivity|].
  split.
  - destruct (next_value_binary rnd (count0 vote) (count1 vote)) as [-> | ->];
      auto.
  - eapply Forall_impl; [apply broadcast_ports|].
    intros f [_ ->]. simpl. auto.
Qed.

(** Four nodes, one fault: round 1 ends on 1, "?", "?" and the node
    proposes 1 for round 2. *)
Lemma advance_broadcast_matches_state_witness :
  let nd := {| proposals := ∅; votes := {[ 1 := [V1; VQ] ]};
               currentState := {| killed := false; x := Some V0;
                                  decided := Some false; k := Some 1 |} |} in
  let r := onMessage tags_part_000 8000 4 1 false (1 # 4)%Q (vote_msg 1 VQ) nd in
  length r.2 = 4%nat /\ k (currentState r.1) = Some 2.
Proof.
  intros nd r.
  destruct (advance_broadcast_matches_state tags_part_000 8000 4 1 (1 # 4)%Q
              (vote_msg 1 VQ) nd) as (Hl & _ & Hk & _).
  - discriminate.
  - reflexivity.
  - reflexivity.
  - vm_compute. discriminate.
  - vm_compute. lia.
  - vm_compute. lia.
  - split; [exact Hl|exact Hk].
Defined.

(** ** Below the quorum *)

(** X17.  While the tally a handled message goes into stays below [N - F]
    entries, the node only stores the value: it sends nothing and its state
    record is as before, for a proposal and for a vote alike. *)
Theorem below_quorum_silent
    (tags : Tags) (BASE_NODE_PORT : Z) (N F : nat) (rnd : Q)
    (m : Message) (nd : Node) :
  killed (currentState nd) = false ->
  msg_type m = handled_propose tags \/ msg_type m = handled_vote tags ->
  let held := if String.eqb (msg_type m) (handled_propose tags)
              then tally (proposals nd) (msg_k m)
              else tally (votes nd) (msg_k m) in
  let r := onMessage tags BASE_NODE_PORT N F false rnd m nd in
  Z.of_nat (length held) + 1 < Z.of_nat N - Z.of_nat F ->
  r.2 = []
  /\ currentState r.1 = currentState nd
  /\ tally (if String.eqb (msg_type m) (handled_propose tags)
            then proposals r.1 else votes r.1) (msg_k m)
     = held ++ [msg_x m].
Proof.
  intros Hk Hty held r Hlt. subst held r.
  destruct (String.eqb_spec (msg_type m) (handled_propose tags)) as [Hp|Hp].
  - rewrite onMessage_propose by assumption.
    fold (tally (proposals nd) (msg_k m)).
    replace (quorum N F (tally (proposals nd) (msg_k m) ++ [msg_x m]))
      with false
      by (symmetry; apply quorum_false; rewrite length_app; simpl; lia).
    simpl. repeat split.
    rewrite tally_grown, decide_True by reflexivity. reflexivity.
  - destruct Hty as [Hty|Hv]; [contradiction|].
    rewrite onMessage_vote by assumption.
    fold (tally (votes nd) (msg_k m)).
    replace (quorum N F (tally (votes nd) (msg_k m) ++ [msg_x m]))
      with false
      by (symmetry; apply quorum_false; rewrite length_app; simpl; lia).
    simpl. repeat split.
    rewrite tally_grown, decide_True by reflexivity. reflexivity.
Qed.

(** Four nodes, one fault: the first vote of a round is only stored. *)
Lemma below_quorum_silent_witness :
  let nd := (start_body tags_part_000 8000 4 V0 false (init V0)).1 in
  let r := onMessage tags_part_000 8000 4 1 false (1 # 4)%Q (vote_msg 1 V1) nd in
  r.2 = [] /\ currentState r.1 = currentState nd.
Proof.
  intros nd r.
  destruct (below_quorum_silent tags_part_000 8000 4 1 (1 # 4)%Q
              (vote_msg 1 V1) nd) as (Ho & Hs & _).
  - reflexivity.
  - right. reflexivity.
  - vm_compute. reflexivity.
  - split; [exact Ho|exact Hs].
Defined.
